(** * Shapes: equality, instance check, validation, codecs, update expressions

    A shallow embedding of the compiled transforms of the shapes packages
    ([@shapes/core]: equals, is-instance, validation, metadata;
    [@shapes/dynamodb]: mapper, writer; [@shapes/json]: mapper) and the
    properties of them that the specification states.

    The first part holds the model, the second part the theorems. *)

From Stdlib Require Import PrimFloat.
From stdpp Require Import gmap strings list pretty.

Open Scope string_scope.

Set Warnings "-register-all".

(** ** JavaScript values

    The values the transforms are applied to.  Numbers are IEEE doubles.
    A plain object is the list of its own enumerable properties in the order
    [Object.keys] lists them; the names of one object are pairwise distinct
    ([wf_value]).  Functions, symbols, bigints and [Map] objects are not
    represented.  Objects have no identity in the model: two object values
    stand for two distinct allocations (see [strict_eq]). *)

Inductive Value : Type :=
| VUndefined
| VNull
| VBool (b : bool)
| VNumber (n : float)
| VString (s : string)
| VArray (items : list Value)
| VObject (props : list (string * Value))
| VSet (items : list Value)
| VBuffer (bytes : list Byte.byte)
| VDate (time : float).

(** A template string: literal text and the interpolated values.  How
    JavaScript prints an arbitrary interpolated value is not modelled, so
    the value itself is kept. *)
Inductive Piece : Type :=
| Text (s : string)
| Interp (v : Value)
| InterpKind (kind : string).

Definition Template : Type := list Piece.

Inductive Error : Type :=
| Err (message : Template)        (* new Error(`...`) *)
| TypeError (message : string)    (* raised by the runtime itself *)
| RangeError (message : string).

(** The result of running a piece of code: it returns, it throws, or it
    leaves the part of JavaScript that the model covers. *)
Inductive outcome (A : Type) : Type :=
| Ok (a : A)
| Throw (e : Error)
| OutOfModel.
Arguments Ok {A} a.
Arguments Throw {A} e.
Arguments OutOfModel {A}.

Definition bind {A B} (m : outcome A) (f : A -> outcome B) : outcome B :=
  match m with
  | Ok a => f a
  | Throw e => Throw e
  | OutOfModel => OutOfModel
  end.

Notation "'let*' x ':=' m 'in' k" := (bind m (fun x => k))
  (at level 10, x pattern, k at level 200).

(** [try { body } catch (err) { handler }] *)
Definition try_catch {A} (body : outcome A) (handler : Error -> outcome A) : outcome A :=
  match body with
  | Ok a => Ok a
  | Throw e => handler e
  | OutOfModel => OutOfModel
  end.

Fixpoint traverse {A B} (f : A -> outcome B) (l : list A) : outcome (list B) :=
  match l with
  | [] => Ok []
  | x :: rest => let* y := f x in let* ys := traverse f rest in Ok (y :: ys)
  end.

(** ** Runtime primitives *)

Definition typeof (v : Value) : string :=
  match v with
  | VUndefined => "undefined"
  | VBool _ => "boolean"
  | VNumber _ => "number"
  | VString _ => "string"
  | VNull | VArray _ | VObject _ | VSet _ | VBuffer _ | VDate _ => "object"
  end.

Definition isArray (v : Value) : bool :=
  match v with VArray _ => true | _ => false end.

Definition isBuffer (v : Value) : bool :=
  match v with VBuffer _ => true | _ => false end.

Definition float_of_nat (n : nat) : float :=
  Nat.iter n (fun x => PrimFloat.add x 1%float) 0%float.

Definition float_of_byte (b : Byte.byte) : float :=
  float_of_nat (N.to_nat (Byte.to_N b)).

Definition two52 : float := 4503599627370496%float.

(** [v % 1 === 0] on a number: finite and integral. *)
Definition is_whole (x : float) : bool :=
  let a := PrimFloat.abs x in
  if PrimFloat.ltb a infinity then
    if PrimFloat.leb two52 a then true
    else PrimFloat.eqb (PrimFloat.sub (PrimFloat.add a two52) two52) a
  else false.

Definition indexed {A} (f : A -> Value) (l : list A) : list (string * Value) :=
  imap (fun i x => (pretty i, f x)) l.

Definition chars (s : string) : list Value :=
  (fun c => VString (String c "")) <$> String.list_ascii_of_string s.

(** The own enumerable string-keyed properties, in [Object.keys] order.
    (Integer-like names of a plain object are listed first by the runtime;
    the model keeps the listed order.) *)
Definition own_props (v : Value) : list (string * Value) :=
  match v with
  | VObject props => props
  | VArray items => indexed id items
  | VString s => indexed id (chars s)
  | VBuffer bytes => indexed (fun b => VNumber (float_of_byte b)) bytes
  | _ => []
  end.

Fixpoint assoc {A} (k : string) (l : list (string * A)) : option A :=
  match l with
  | [] => None
  | (k', x) :: rest => if String.eqb k k' then Some x else assoc k rest
  end.

(** The property list of a plain object after the own property [k] is
    defined or redefined with the value [x] (as an object spread does, and
    as an assignment does for every name but [__proto__], see [assign]). *)
Fixpoint assoc_set {A} (k : string) (x : A) (l : list (string * A)) : list (string * A) :=
  match l with
  | [] => [(k, x)]
  | (k', y) :: rest =>
      if String.eqb k k' then (k', x) :: rest else (k', y) :: assoc_set k x rest
  end.

Definition null_access (k : string) : Error :=
  TypeError ("Cannot read properties of undefined or null (reading '" ++ k ++ "')").

Definition not_a_function (what : string) : Error :=
  TypeError (what ++ " is not a function").

(** [v[k]] for a key that is an own property of [v] or that no prototype
    of it defines: own properties, and [length] / [size] of the built-in
    collections.  It is used where the code reads a key that it has just
    listed with [Object.keys] or [Object.entries], and for the fixed keys of
    the wire format ([M], [L], [S], ...); where the code reads an arbitrary
    name, [get_member] below is used. *)
Definition get (v : Value) (k : string) : outcome Value :=
  match v with
  | VUndefined | VNull => Throw (null_access k)
  | _ =>
      match assoc k (own_props v) with
      | Some x => Ok x
      | None =>
          match v with
          | VArray items =>
              if String.eqb k "length" then Ok (VNumber (float_of_nat (length items)))
              else Ok VUndefined
          | VString s =>
              if String.eqb k "length" then Ok (VNumber (float_of_nat (String.length s)))
              else Ok VUndefined
          | VBuffer bytes =>
              if String.eqb k "length" then Ok (VNumber (float_of_nat (length bytes)))
              else Ok VUndefined
          | VSet items =>
              if String.eqb k "size" then Ok (VNumber (float_of_nat (length items)))
              else Ok VUndefined
          | _ => Ok VUndefined
          end
      end
  end.

(** [Object.entries], [Object.keys], [Object.values] *)
Definition Object_entries (v : Value) : outcome (list (string * Value)) :=
  match v with
  | VUndefined | VNull => Throw (TypeError "Cannot convert undefined or null to object")
  | _ => Ok (own_props v)
  end.

Definition Object_keys (v : Value) : outcome (list string) :=
  let* es := Object_entries v in Ok (fst <$> es).

Definition Object_values (v : Value) : outcome (list Value) :=
  let* es := Object_entries v in Ok (snd <$> es).

(** The names of the members that every plain object inherits from
    [Object.prototype]: methods, and the accessor [__proto__]. *)
Definition Object_prototype_members : list string :=
  ["constructor"; "__defineGetter__"; "__defineSetter__"; "hasOwnProperty";
   "__lookupGetter__"; "__lookupSetter__"; "isPrototypeOf"; "propertyIsEnumerable";
   "toString"; "valueOf"; "__proto__"; "toLocaleString"].

Definition inherited (k : string) : bool :=
  existsb (String.eqb k) Object_prototype_members.

(** [v[k]] for an arbitrary name [k].  An own property is returned.  On a
    plain object a name that is not an own property reads as undefined,
    unless the object inherits a member of that name: the member is a
    function (or the prototype itself), which is not a value of the model.
    The other values inherit from larger prototypes ([Array.prototype],
    [String.prototype], ...): a name that is not an own property of theirs
    is left outside the model. *)
Definition get_member (v : Value) (k : string) : outcome Value :=
  match v with
  | VUndefined | VNull => Throw (null_access k)
  | VObject props =>
      match assoc k props with
      | Some x => Ok x
      | None => if inherited k then OutOfModel else Ok VUndefined
      end
  | _ =>
      match assoc k (own_props v) with
      | Some x => Ok x
      | None => OutOfModel
      end
  end.

Definition is_primitive (v : Value) : bool :=
  match v with
  | VUndefined | VBool _ | VNumber _ | VString _ => true
  | _ => false
  end.

(** [result[name] = x] on a plain object [result] that the code has
    created with [{}].  The name [__proto__] is an accessor: assigning a
    primitive to it does nothing, and assigning an object or null changes
    the prototype of [result], which the model does not follow.  Every other
    name becomes, or stays, an own property. *)
Definition assign (name : string) (x : Value) (result : list (string * Value))
    : outcome (list (string * Value)) :=
  if String.eqb name "__proto__" then
    if is_primitive x then Ok result else OutOfModel
  else Ok (assoc_set name x result).

Definition byte_eqb (a b : Byte.byte) : bool := Byte.eqb a b.

(** [a === b].  Primitives compare by value; two objects compare by
    reference, and the object values of the model are distinct allocations. *)
Definition strict_eq (a b : Value) : bool :=
  match a, b with
  | VUndefined, VUndefined => true
  | VNull, VNull => true
  | VBool x, VBool y => Bool.eqb x y
  | VNumber x, VNumber y => PrimFloat.eqb x y
  | VString x, VString y => String.eqb x y
  | _, _ => false
  end.

(** SameValueZero, the comparison of [Set]: as [===] but NaN equals NaN. *)
Definition same_value_zero (a b : Value) : bool :=
  match a, b with
  | VNumber x, VNumber y =>
      PrimFloat.eqb x y || (PrimFloat.is_nan x && PrimFloat.is_nan y)
  | _, _ => strict_eq a b
  end.

Definition is_undefined (v : Value) : bool :=
  match v with VUndefined => true | _ => false end.

Definition is_nullish (v : Value) : bool :=
  match v with VUndefined | VNull => true | _ => false end.

(** [array.indexOf(a) !== -1] on an array of strings *)
Definition index_of_string (values : list string) (a : Value) : bool :=
  existsb (fun s => strict_eq (VString s) a) values.

(** [new Set(items)]: later duplicates are dropped. *)
Fixpoint Set_add (items : list Value) (x : Value) : list Value :=
  match items with
  | [] => [x]
  | y :: rest => if same_value_zero y x then items else y :: Set_add rest x
  end.

Definition new_Set (items : list Value) : Value :=
  VSet (foldl Set_add [] items).

(** [Array.from(v)] *)
Definition Array_from (v : Value) : outcome (list Value) :=
  match v with
  | VUndefined | VNull => Throw (TypeError "undefined is not iterable")
  | VArray items | VSet items => Ok items
  | VString s => Ok (chars s)
  | VBuffer bytes => Ok ((fun b => VNumber (float_of_byte b)) <$> bytes)
  | _ => Ok []
  end.

(** [strings.join(sep)] *)
Definition join_with (sep : string) (l : list string) : string :=
  match l with
  | [] => ""
  | x :: rest => foldl (fun acc y => acc ++ sep ++ y) x rest
  end.


(** ** The update-expression writer ([writer.ts]) *)

Module Writer.

(** [aliases], [aliasReverseLookup] and [values] are declared without an
    initial value: they are undefined until first used.  The two counters
    only ever hold integers.  The tables are plain objects used as maps:
    the finite maps hold their own properties, and [addName] also finds the
    members that a plain object inherits (see [inherited_member]).  The keys
    that are written ([#k], [:k], and the names that [addName] records) are
    never [__proto__]. *)
Record Namespace : Type := mkNamespace {
  aliases : option (gmap string string);
  aliasReverseLookup : option (gmap string string);
  values : option (gmap string Value);
  namesCounter : N;
  valuesCounter : N
}.

Definition new_Namespace : Namespace :=
  mkNamespace None None None 0 0.

Definition newNameAlias (ns : Namespace) : string * Namespace :=
  let c := (namesCounter ns + 1)%N in
  ("#" ++ pretty c,
   mkNamespace (aliases ns) (aliasReverseLookup ns) (values ns) c (valuesCounter ns)).

Definition newValueId (ns : Namespace) : string * Namespace :=
  let c := (valuesCounter ns + 1)%N in
  (":" ++ pretty c,
   mkNamespace (aliases ns) (aliasReverseLookup ns) (values ns) (namesCounter ns) c).

Definition addValue (ns : Namespace) (value : Value) : string * Namespace :=
  let '(id, ns) := newValueId ns in
  let vs := default ∅ (values ns) in
  (id, mkNamespace (aliases ns) (aliasReverseLookup ns) (Some (<[id := value]> vs))
         (namesCounter ns) (valuesCounter ns)).

(** What [aliasReverseLookup[name]] finds when [name] is not an own
    property of the table but the name of a member inherited from
    [Object.prototype]: a built-in function, or the prototype itself for
    [__proto__].  The token buffer holds strings in the model, so the member
    is kept as the text that [tokens.join('')] makes of it. *)
Definition inherited_member (name : string) : option string :=
  if String.eqb name "__proto__" then Some "[object Object]"
  else if String.eqb name "constructor" then Some "function Object() { [native code] }"
  else if inherited name then Some ("function " ++ name ++ "() { [native code] }")
  else None.

Definition addName (ns : Namespace) (name : string) : outcome (string * Namespace) :=
  let ns :=
    match aliases ns with
    | None => mkNamespace (Some ∅) (Some ∅) (values ns) (namesCounter ns) (valuesCounter ns)
    | Some _ => ns
    end in
  match aliases ns, aliasReverseLookup ns with
  | Some al, Some rev =>
      match rev !! name with
      | Some alias => Ok (alias, ns)
      | None =>
          match inherited_member name with
          | Some member => Ok (member, ns)   (* not undefined: returned as the alias *)
          | None =>
              let '(alias, ns) := newNameAlias ns in
              Ok (alias,
                  mkNamespace (Some (<[alias := name]> al)) (Some (<[name := alias]> rev))
                    (values ns) (namesCounter ns) (valuesCounter ns))
          end
      end
  | _, _ => Throw (null_access name)
  end.

Record Writer : Type := mkWriter {
  tokens : list string;
  namespace : Namespace
}.

Definition new_Writer : Writer := mkWriter [] new_Namespace.

Record Expression : Type := mkExpression {
  Expression_ : string;
  ExpressionAttributeNames : option (gmap string string);
  ExpressionAttributeValues : option (gmap string Value)
}.

Definition toExpression (w : Writer) : Expression :=
  mkExpression (join_with "" (tokens w)) (aliases (namespace w)) (values (namespace w)).

Definition head (w : Writer) : option string := last (tokens w).

Definition pop (w : Writer) : option string * Writer :=
  (last (tokens w), mkWriter (removelast (tokens w)) (namespace w)).

Definition writeToken (w : Writer) (token : string) : Writer :=
  mkWriter (tokens w ++ [token]) (namespace w).

Definition writeName (w : Writer) (name : string) : outcome Writer :=
  let* (alias, ns) := addName (namespace w) name in
  Ok (writeToken (mkWriter (tokens w) ns) alias).

Definition writeValue (w : Writer) (value : Value) : Writer :=
  let '(id, ns) := addValue (namespace w) value in
  writeToken (mkWriter (tokens w) ns) id.

(** What a clause does to the writer when it synthesizes itself: a
    sequence of calls of the three write methods. *)
Inductive Call : Type :=
| WriteToken (token : string)
| WriteName (name : string)
| WriteValue (value : Value).

Definition call (w : Writer) (c : Call) : outcome Writer :=
  match c with
  | WriteToken t => Ok (writeToken w t)
  | WriteName n => writeName w n
  | WriteValue v => Ok (writeValue w v)
  end.

Fixpoint run (w : Writer) (cs : list Call) : outcome Writer :=
  match cs with
  | [] => Ok w
  | c :: rest => let* w' := call w c in run w' rest
  end.

Definition is_WriteValue (c : Call) : bool :=
  match c with WriteValue _ => true | _ => false end.

(** The tokens that the [WriteValue] calls of a run have written, in call
    order, given the tokens of all calls. *)
Definition value_tokens (cs : list Call) (toks : list string) : list string :=
  snd <$> filter (fun p => is_WriteValue (fst p) = true) (zip cs toks).

(** The name alias with the given rank, counted from zero: [#1], [#2], ... *)
Definition alias_of (i : nat) : string := "#" ++ pretty (N.of_nat (S i)).

(** The names that the [WriteName] calls ask an alias for, in call order. *)
Definition names_of (cs : list Call) : list string :=
  omap (fun c => match c with WriteName n => Some n | _ => None end) cs.

(** Those of them that are recorded in the tables. *)
Definition recorded_names_of (cs : list Call) : list string :=
  filter (fun n => inherited n = false) (names_of cs).

(** The name tables of a namespace hold exactly the names [seen], the
    name of rank [i] under the alias [alias_of i]. *)
Definition names_inv (ns : Namespace) (seen : list string) : Prop :=
  NoDup seen /\ namesCounter ns = N.of_nat (length seen) /\
  match aliases ns, aliasReverseLookup ns with
  | None, _ => seen = []
  | Some al, Some rev =>
      (forall name t, rev !! name = Some t <-> exists i, seen !! i = Some name /\ t = alias_of i) /\
      (forall t name, al !! t = Some name <-> exists i, seen !! i = Some name /\ t = alias_of i)
  | Some _, None => False
  end.

End Writer.

(** ** Shapes and their metadata ([metadata.ts]) *)

(** A validator as the validation family compiles it: value and path to
    diagnostics.  It is a closure, so it may also throw.  The path is a
    template string, as some paths interpolate a value. *)
Definition ValidatorFn : Type := Value -> Template -> outcome (list Error).

(** The values held in a shape's metadata store: data, and the validator
    closures that the constraint traits put into arrays. *)
Inductive MetaValue : Type :=
| MUndefined
| MNull
| MBool (b : bool)
| MNumber (n : float)
| MString (s : string)
| MFunction (f : ValidatorFn)
| MArray (items : list MetaValue)
| MObject (props : list (string * MetaValue)).

Definition Metadata : Type := MetaValue.

Definition meta_typeof (m : MetaValue) : string :=
  match m with
  | MUndefined => "undefined"
  | MBool _ => "boolean"
  | MNumber _ => "number"
  | MString _ => "string"
  | MFunction _ => "function"
  | MNull | MArray _ | MObject _ => "object"
  end.

Definition meta_is_undefined (m : MetaValue) : bool :=
  match m with MUndefined => true | _ => false end.

(** [{...m}] for a value whose [typeof] is object *)
Definition meta_spread (m : MetaValue) : list (string * MetaValue) :=
  match m with
  | MObject props => props
  | MArray items => imap (fun i x => (pretty i, x)) items
  | _ => []
  end.

(** [{...b, ...a}] *)
Definition spread_over {A} (b a : list (string * A)) : list (string * A) :=
  foldl (fun acc p => assoc_set (fst p) (snd p) acc) b a.

(** One round of the loop of [mergeMetadataValue] over the entries of [b];
    [merge_with value] is the recursive call with [value] as new value. *)
Definition merge_entry (acc : list (string * MetaValue)) (name : string)
    (value : MetaValue) (merge_with : MetaValue -> outcome MetaValue)
    : outcome (list (string * MetaValue)) :=
  match assoc name acc with
  | Some old =>
      if meta_is_undefined old then Ok (assoc_set name value acc)
      else let* merged := merge_with old in Ok (assoc_set name merged acc)
  | None => Ok (assoc_set name value acc)
  end.

(** The loop [for (const [name, value] of Object.entries(b))] of
    [mergeMetadataValue], over the properties of an object or the items of
    an array; [merge] is the function itself. *)
Fixpoint merge_loop {A} (name_of : nat -> A -> string) (value_of : A -> MetaValue)
    (merge : MetaValue -> MetaValue -> outcome MetaValue)
    (i : nat) (entries : list A) (acc : list (string * MetaValue))
    : outcome (list (string * MetaValue)) :=
  match entries with
  | [] => Ok acc
  | x :: rest =>
      let* acc := merge_entry acc (name_of i x) (value_of x)
                    (fun old => merge old (value_of x)) in
      merge_loop name_of value_of merge (S i) rest acc
  end.

Module Meta.

(** [mergeMetadataValue(a, b)]: [a] is the old value, [b] the new one. *)
Fixpoint mergeMetadataValue (a b : MetaValue) {struct b} : outcome MetaValue :=
  match a, b with
  | MArray la, MArray lb => Ok (MArray (lb ++ la)%list)
  | _, _ =>
      if String.eqb (meta_typeof a) "object" && String.eqb (meta_typeof b) "object" then
        match b with
        | MObject props =>
            let* a' := merge_loop (fun _ p => fst p) snd mergeMetadataValue
                         0 props (meta_spread a) in
            Ok (MObject (spread_over props a'))
        | MArray items =>
            let* a' := merge_loop (fun i _ => pretty i) id mergeMetadataValue
                         0 items (meta_spread a) in
            Ok (MObject (spread_over (meta_spread b) a'))
        | _ => Throw (TypeError "Cannot convert undefined or null to object")
        end
      else Ok b
  end.

End Meta.

Inductive Shape : Type :=
| AnyShape
| BinaryShape
| BoolShape
| IntegerShape
| NeverShape
| NothingShape
| NumberShape
| StringShape
| TimestampShape
| EnumShape (Values : list (string * string))
| LiteralShape (Type_ : Shape) (Value_ : Value)
| ArrayShape (Items : Shape)
| SetShape (Items : Shape)
| MapShape (Items : Shape)
| StructShape (Fields : list (string * Shape))
| UnionShape (Items : list Shape)
| FunctionShape (args : list (string * Shape)) (returns : Shape)
(* the proxy that [Meta.apply] wraps around a shape: it answers
   [Decorated.Data] itself and forwards everything else to its target *)
| Decorated (Data : Metadata) (target : Shape).

Fixpoint Kind (shape : Shape) : string :=
  match shape with
  | AnyShape => "anyShape"
  | BinaryShape => "binaryShape"
  | BoolShape => "boolShape"
  | IntegerShape => "integerShape"
  | NeverShape => "neverShape"
  | NothingShape => "nothingShape"
  | NumberShape => "numberShape"
  | StringShape => "stringShape"
  | TimestampShape => "timestampShape"
  | EnumShape _ => "enumShape"
  | LiteralShape _ _ => "literalShape"
  | ArrayShape _ => "arrayShape"
  | SetShape _ => "setShape"
  | MapShape _ => "mapShape"
  | StructShape _ => "structShape"
  | UnionShape _ => "unionShape"
  | FunctionShape _ _ => "functionShape"
  | Decorated _ target => Kind target
  end.

(** The shape behind the proxies. *)
Fixpoint undecorated (shape : Shape) : Shape :=
  match shape with
  | Decorated _ target => undecorated target
  | _ => shape
  end.

Definition meta_truthy (m : MetaValue) : bool :=
  match m with
  | MUndefined | MNull => false
  | MBool b => b
  | MNumber n => negb (PrimFloat.eqb n 0%float || PrimFloat.is_nan n)
  | MString s => negb (String.eqb s "")
  | _ => true
  end.

(** [target[Decorated.Data] || {}] *)
Definition Data_or_empty (shape : Shape) : Metadata :=
  match shape with
  | Decorated Data _ => if meta_truthy Data then Data else MObject []
  | _ => MObject []
  end.

(** [meta[k]] on a metadata value, for a key [k] that is an entry of [meta]
    or does not name a member that objects inherit (the code finds such a
    member where [k] is no entry; the properties that read keys other than
    [validator] say so) *)
Definition meta_get (m : MetaValue) (k : string) : MetaValue :=
  default MUndefined (assoc k (meta_spread m)).

Definition Meta_get (target : Shape) (keys : option (list string)) : Metadata :=
  let meta := Data_or_empty target in
  match keys with
  | Some keys =>
      MObject (foldl (fun a k => spread_over a [(k, meta_get meta k)]) []
                 (filter (fun k => meta_is_undefined (meta_get meta k) = false) keys))
  | None => meta
  end.

Definition Meta_apply (shape : Shape) (metadata : Metadata) : outcome Shape :=
  let* mergedMetadata := Meta.mergeMetadataValue (Data_or_empty shape) metadata in
  Ok (Decorated mergedMetadata shape).

(** ** Structural equality ([equals.ts]) and instance check ([is-instance.ts]) *)

(** [v[i]] for an integer index *)
Definition item_at (v : Value) (i : nat) : outcome Value :=
  match v with
  | VUndefined | VNull => Throw (null_access (pretty i))
  | VArray items => Ok (default VUndefined (items !! i))
  | VString s => Ok (default VUndefined (chars s !! i))
  | VBuffer bytes => Ok (default VUndefined ((fun b => VNumber (float_of_byte b)) <$> bytes !! i))
  | VObject props => Ok (default VUndefined (assoc (pretty i) props))
  | _ => Ok VUndefined
  end.

(** [v.length]: a count, or undefined ([None]).  A plain object that has a
    property of that name is outside the model. *)
Definition length_of (v : Value) : outcome (option nat) :=
  match v with
  | VUndefined | VNull => Throw (null_access "length")
  | VArray items => Ok (Some (length items))
  | VString s => Ok (Some (String.length s))
  | VBuffer bytes => Ok (Some (length bytes))
  | VObject props =>
      match assoc "length" props with None => Ok None | Some _ => OutOfModel end
  | _ => Ok None
  end.

(** [v.size] *)
Definition size_of (v : Value) : outcome (option nat) :=
  match v with
  | VUndefined | VNull => Throw (null_access "size")
  | VSet items => Ok (Some (length items))
  | VObject props =>
      match assoc "size" props with None => Ok None | Some _ => OutOfModel end
  | _ => Ok None
  end.

Definition option_nat_eqb (a b : option nat) : bool :=
  match a, b with
  | Some x, Some y => Nat.eqb x y
  | None, None => true
  | _, _ => false
  end.

Definition string_in (k : string) (l : list string) : bool :=
  existsb (String.eqb k) l.

(** The tail of the object case of the any-equality: [b] has as many keys
    as [a], has every key of [a], and the values under each key agree. *)
Definition keys_equal (entries : list (string * (Value -> outcome bool))) (b : Value)
    : outcome bool :=
  if isArray b then Ok false else
  let* bKeys := Object_keys b in
  if negb (Nat.eqb (length entries) (length (remove_dups bKeys))) then Ok false else
  (fix loop (es : list (string * (Value -> outcome bool))) : outcome bool :=
     match es with
     | [] => Ok true
     | (k, eq) :: rest =>
         if negb (string_in k bKeys) then Ok false else
         let* bv := get b k in
         let* r := eq bv in
         if r then loop rest else Ok false
     end) entries.

(** The equality of [anyShape]. *)
Fixpoint any_equals (a b : Value) {struct a} : outcome bool :=
  if negb (String.eqb (typeof a) (typeof b)) then Ok false else
  match a with
  | VUndefined => Ok true
  | VBool _ | VNumber _ | VString _ => Ok (strict_eq a b)
  | VArray xs =>
      match b with
      | VArray ys =>
          if negb (Nat.eqb (length xs) (length ys)) then Ok false else
          (fix loop (xs ys : list Value) : outcome bool :=
             match xs, ys with
             | x :: xs', y :: ys' =>
                 let* r := any_equals x y in
                 if r then loop xs' ys' else Ok false
             | _, _ => Ok true
             end) xs ys
      | _ => Ok false
      end
  | VNull =>
      if isArray b then Ok false
      else Throw (TypeError "Cannot convert undefined or null to object")
  | VObject props =>
      keys_equal (map (fun p => (fst p, any_equals (snd p))) props) b
  | VSet _ | VDate _ => keys_equal [] b
  | VBuffer bytes =>
      keys_equal
        (map (fun p => (fst p, fun bv =>
                Ok (String.eqb (typeof (snd p)) (typeof bv) && strict_eq (snd p) bv)))
           (own_props a)) b
  end.

(** The body of the loops [for (const x of xs) { if (!test(x)) return false; }]
    followed by [return last]. *)
Fixpoint all_or_false {A} (test : A -> outcome bool) (xs : list A) (last : bool) : outcome bool :=
  match xs with
  | [] => Ok last
  | x :: rest =>
      let* r := test x in
      if r then all_or_false test rest last else Ok false
  end.

(** [items.find(isItem => isItem(a)) !== undefined] *)
Fixpoint find_accepting (items : list (Value -> outcome bool)) (a : Value) : outcome bool :=
  match items with
  | [] => Ok false
  | isItem :: rest =>
      let* r := isItem a in
      if r then Ok true else find_accepting rest a
  end.

Definition empty_reduce : Error :=
  TypeError "Reduce of empty array with no initial value".

(** [Equals.of(shape)] and [IsInstance.of(shape, props)].  The [props]
    ([deep]) are handed down and never read, and the cache only saves work:
    both are left out. *)
Fixpoint Equals_of (shape : Shape) : Value -> Value -> outcome bool :=
  match shape with
  | EnumShape _ => fun a b => Ok (strict_eq a b)
  | LiteralShape Type_ _ => Equals_of Type_
  | UnionShape Items =>
      let items := map (fun item => (IsInstance_of item, Equals_of item)) Items in
      fun a b =>
        if strict_eq a b then Ok true else
        (fix loop (items : list ((Value -> outcome bool) * (Value -> Value -> outcome bool)))
           : outcome bool :=
           match items with
           | [] => Ok false
           | (isType, isEqual) :: rest =>
               let* ta := isType a in
               if ta then
                 let* tb := isType b in
                 if tb then isEqual a b else loop rest
               else loop rest
           end) items
  | NeverShape => fun _ _ => Ok false
  | FunctionShape _ _ => fun a b => Ok (strict_eq a b && String.eqb (typeof a) "function")
  | NothingShape => fun a b => Ok (strict_eq a b && strict_eq a VUndefined)
  | AnyShape => any_equals
  | BinaryShape => fun a b =>
      let* la := length_of a in
      let* lb := length_of b in
      if negb (option_nat_eqb la lb) then Ok false else
      match la with
      | None | Some 0 => Ok true
      | Some _ =>
          match a, b with
          | VBuffer x, VBuffer y =>
              Ok (forallb (fun p => byte_eqb (fst p) (snd p)) (zip x y))
          | VBuffer _, _ => Throw (not_a_function "b.readUInt8")
          | _, _ => Throw (not_a_function "a.readUInt8")
          end
      end
  | ArrayShape Items =>
      let itemEq := Equals_of Items in
      fun a b =>
        let* la := length_of a in
        let* lb := length_of b in
        if negb (option_nat_eqb la lb) then Ok false else
        all_or_false
          (fun i => let* aItem := item_at a i in
                    let* bItem := item_at b i in
                    itemEq aItem bItem)
          (seq 0 (default 0 la)) true
  | BoolShape => fun a b => Ok (strict_eq a b)
  | StructShape Fields =>
      let fields := map (fun p => (fst p, Equals_of (snd p))) Fields in
      match Fields with
      | [] => fun _ _ => Throw empty_reduce
      | _ => fun a b =>
          let* aKeys := Object_keys a in
          let* bKeys := Object_keys b in
          if negb (Nat.eqb (length aKeys) (length bKeys)) then Ok false else
          all_or_false
            (fun aKey =>
               let* aValue := get a aKey in
               let* bValue := get_member b aKey in
               if is_undefined aValue && is_undefined bValue then Ok false else
               match assoc aKey fields with
               | Some isEqual => isEqual aValue bValue
               | None => Throw (not_a_function "fields[aKey]")
               end)
            aKeys true
      end
  | MapShape Items =>
      let valueEquals := Equals_of Items in
      fun a b =>
        let* aKeys := Object_keys a in
        let* bKeys := Object_keys b in
        if negb (Nat.eqb (length aKeys) (length bKeys)) then Ok false else
        all_or_false
          (fun aKey =>
             let* aValue := get a aKey in
             let* bValue := get_member b aKey in
             if is_undefined bValue then Ok false else valueEquals aValue bValue)
          aKeys true
  | NumberShape => fun a b => Ok (strict_eq a b)
  (* the visitor of the equality has no method for the Integer shape, and how
     [visit] dispatches an Integer shape is not part of the sources *)
  | IntegerShape => fun _ _ => OutOfModel
  | SetShape _ => fun a b =>
      let* sa := size_of a in
      let* sb := size_of b in
      if negb (option_nat_eqb sa sb) then Ok false else
      match a with
      | VSet xs =>
          match b with
          | VSet ys => Ok (forallb (fun v => existsb (same_value_zero v) ys) xs)
          | _ => match xs with [] => Ok true | _ => Throw (not_a_function "b.has") end
          end
      | VArray [] => Ok true
      | VArray _ => Throw (not_a_function "b.has")
      | VBuffer _ => OutOfModel
      | _ => Throw (not_a_function "a.values")
      end
  | StringShape => fun a b => Ok (strict_eq a b)
  | TimestampShape => fun a b =>
      match a, b with
      | VDate x, VDate y => Ok (PrimFloat.eqb x y)
      | (VUndefined | VNull), _ => Throw (null_access "getTime")
      | VDate _, (VUndefined | VNull) => Throw (null_access "getTime")
      | VDate _, _ => Throw (not_a_function "b.getTime")
      | _, _ => Throw (not_a_function "a.getTime")
      end
  | Decorated _ target => Equals_of target
  end

with IsInstance_of (shape : Shape) : Value -> outcome bool :=
  match shape with
  | EnumShape Values => fun a => Ok (index_of_string (snd <$> Values) a)
  | ArrayShape Items =>
      let isItem := IsInstance_of Items in
      fun a =>
        match a with
        | VArray items =>
            let* accepted := traverse isItem items in
            Ok (Nat.eqb (length (filter (fun r => r = false) accepted)) 0)
        | _ => Ok false
        end
  | BinaryShape => fun a => Ok (isBuffer a || String.eqb (typeof a) "string")
  | BoolShape => fun a => Ok (String.eqb (typeof a) "boolean")
  | StructShape Fields =>
      let fields := map (fun p => (fst p, IsInstance_of (snd p))) Fields in
      match Fields with
      | [] => fun _ => Throw empty_reduce
      | _ => fun a =>
          if String.eqb (typeof a) "object" then
            all_or_false
              (fun p => let* value := get_member a (fst p) in snd p value)
              fields true
          else Ok false
      end
  | AnyShape => fun _ => Ok true
  | FunctionShape _ _ => fun _ => Ok false
  | IntegerShape => fun a => Ok (String.eqb (typeof a) "number")
  | LiteralShape Type_ Value_ =>
      let isEqual := Equals_of Type_ in
      let isType := IsInstance_of Type_ in
      fun a =>
        let* t := isType a in
        if t then isEqual a Value_ else Ok false
  | MapShape Items =>
      let isItem := IsInstance_of Items in
      fun a =>
        if String.eqb (typeof a) "object" then
          let* entries := Object_entries a in
          all_or_false (fun p => isItem (snd p)) entries true
        else Ok false
  | NeverShape => fun _ => Ok false
  | NothingShape => fun a => Ok (is_nullish a)
  | NumberShape => fun a => Ok (String.eqb (typeof a) "number")
  | SetShape Items =>
      let isItem := IsInstance_of Items in
      fun a =>
        match a with
        | VSet items => all_or_false isItem items false
        | _ => Ok false
        end
  | StringShape => fun a => Ok (String.eqb (typeof a) "string")
  | TimestampShape => fun a => Ok (match a with VDate _ => true | _ => false end)
  | UnionShape Items =>
      let items := map IsInstance_of Items in
      find_accepting items
  | Decorated _ target => IsInstance_of target
  end.

(** ** Validation ([validation.ts]) *)

(** [validators.map(v => v(a, path)).reduce((a, b) => a.concat(b), [])] *)
Definition run_validators (validators : list ValidatorFn) : ValidatorFn :=
  fun a path =>
    let* errors := traverse (fun v => v a path) validators in
    Ok (concat errors).

(** [(Meta.get(shape, ['validator']) || {}).validator || []], as the list of
    closures that [concat] and the later calls make of it. *)
Definition decoratedValidators (shape : Shape) : list ValidatorFn :=
  let validator := meta_get (Meta_get shape (Some ["validator"])) "validator" in
  if meta_truthy validator then
    match validator with
    | MArray items =>
        map (fun v => match v with
                      | MFunction f => f
                      | _ => fun _ _ => Throw (not_a_function "v")
                      end) items
    | _ => [fun _ _ => Throw (not_a_function "decoratedValidators.concat")]
    end
  else [].

(** [Validator.of(shape)], given the visitor *)
Definition Validator_of_by (visit : Shape -> list ValidatorFn) (shape : Shape) : ValidatorFn :=
  run_validators (decoratedValidators shape ++ visit shape)%list.

(** [`${path}['${name}']`] *)
Definition path_field (path : Template) (name : string) : Template :=
  (path ++ [Text "['"; Text name; Text "']"])%list.

(** [`${path}[${i}]`] *)
Definition path_index (path : Template) (i : nat) : Template :=
  (path ++ [Text "["; Text (pretty i); Text "]"])%list.

(** [`${path}['${key}']`] where [key] is a value *)
Definition path_value (path : Template) (key : Value) : Template :=
  (path ++ [Text "['"; Interp key; Text "']"])%list.

(** [`${path}['${path}']`] *)
Definition path_path (path : Template) : Template :=
  (path ++ [Text "['"] ++ path ++ [Text "']"])%list.

(** The visitor of the validation family. *)
Fixpoint Validator_visit (shape : Shape) : list ValidatorFn :=
  match shape with
  | EnumShape Values =>
      let values := snd <$> Values in
      [fun item path =>
         if negb (String.eqb (typeof item) "string") then
           Ok [Err ([Text "expected string value for enum, got "; Interp item; Text " at "]
                    ++ path)%list]
         else if negb (index_of_string values item) then
           Ok [Err ([Text "expected one of ("; Text (join_with "," values); Text "), got ";
                     Interp item; Text " at "] ++ path)%list]
         else Ok []]
  | UnionShape Items =>
      let isTypes := map (fun item => (IsInstance_of item, Validator_of_by Validator_visit item)) Items in
      [fun item path =>
         (fix loop (isTypes : list ((Value -> outcome bool) * ValidatorFn)) :=
            match isTypes with
            | [] => Ok []
            | (isType, validator) :: rest =>
                let* t := isType item in
                if t then validator item path else loop rest
            end) isTypes]
  | LiteralShape Type_ Value_ =>
      let isType := IsInstance_of Type_ in
      [fun value path =>
         let* t := isType value in
         if negb t then
           Ok [Err ([Text "expected literal value: "; Interp Value_; Text ", got ";
                     Interp value; Text ", at: "] ++ path)%list]
         else Ok []]
  | NeverShape | FunctionShape _ _ | NothingShape | AnyShape => []
  | ArrayShape Items =>
      let validateItem := Validator_of_by Validator_visit Items in
      [fun arr path =>
         match arr with
         | VArray items =>
             let* errors := traverse (fun p => validateItem (snd p) (path_index path (fst p)))
                              (imap (fun i item => (i, item)) items) in
             Ok (concat errors)
         | VUndefined | VNull => Throw (null_access "map")
         | VBuffer _ => OutOfModel
         | _ => Throw (not_a_function "arr.map")
         end]
  | BinaryShape | BoolShape => []
  | StructShape Fields =>
      (* [validators[name] = [of(member)]]: the assignment to the name
         [__proto__] makes no entry, so [Object.entries] does not list that
         field; it is kept here with no validator to run *)
      let validators :=
        map (fun p => (fst p, if String.eqb (fst p) "__proto__" then []
                              else [Validator_of_by Validator_visit (snd p)])) Fields in
      [fun obj path =>
         let* errors :=
           traverse (fun p =>
               let* es := traverse (fun v : ValidatorFn =>
                              let* value := get_member obj (fst p) in
                              v value (path_field path (fst p))) (snd p) in
               Ok (concat es))
             validators in
         Ok (concat errors)]
  | MapShape Items =>
      let item := Validator_of_by Validator_visit Items in
      [fun arr path =>
         let* values := Object_values arr in
         let* errors := traverse (fun key => item key (path_value path key)) values in
         Ok (concat errors)]
  | NumberShape => []
  | IntegerShape =>
      [fun v _ =>
         let whole :=
           match v with
           | VNumber n => Ok (is_whole n)
           | VUndefined => Ok false
           | VNull | VBool _ => Ok true
           | _ => OutOfModel
           end in
         let* w := whole in
         if w then Ok []
         else Ok [Err [Text "integers must be whole numbers, but got: "; Interp v]]]
  | SetShape Items =>
      let item := Validator_of_by Validator_visit Items in
      [fun set path =>
         let* items := Array_from set in
         let* errors := traverse (fun i => item i (path_path path)) items in
         Ok (concat errors)]
  | StringShape | TimestampShape => []
  | Decorated _ target => Validator_visit target
  end.

Definition Validator_of (shape : Shape) : ValidatorFn :=
  Validator_of_by Validator_visit shape.

(** ** Compilation of the transforms

    [IsInstance.of], [Equals.of] and [Validator.of] visit the shapes inside
    a shape when they are called, before any value is looked at, and a
    visit can throw: a Struct without fields makes the [reduce] of the
    instance check and of the equality throw, and the visitor of the
    equality has no method for the Integer shape.  The transforms above
    raise such an error only when the check that throws is applied to a
    value.  The predicates below tell when the call itself is known to
    return, so that the transform above is the function that the call
    returns; a property of a compiled transform is stated under them. *)
Fixpoint IsInstance_compiles (shape : Shape) : bool :=
  match shape with
  | ArrayShape Items | SetShape Items | MapShape Items => IsInstance_compiles Items
  | StructShape Fields =>
      match Fields with
      | [] => false
      | _ => forallb (fun p => IsInstance_compiles (snd p)) Fields
      end
  | LiteralShape Type_ _ => Equals_compiles Type_ && IsInstance_compiles Type_
  | UnionShape Items => forallb IsInstance_compiles Items
  | Decorated _ target => IsInstance_compiles target
  | _ => true
  end

with Equals_compiles (shape : Shape) : bool :=
  match shape with
  | LiteralShape Type_ _ => Equals_compiles Type_
  | UnionShape Items =>
      forallb (fun item => IsInstance_compiles item && Equals_compiles item) Items
  | ArrayShape Items | MapShape Items => Equals_compiles Items
  | StructShape Fields =>
      match Fields with
      | [] => false
      | _ => forallb (fun p => Equals_compiles (snd p)) Fields
      end
  | IntegerShape => false
  | Decorated _ target => Equals_compiles target
  | _ => true
  end.

(** The entry [validator] of the metadata of a shape is missing or an
    array, so that [decoratedValidators.concat] is the concatenation of
    arrays. *)
Definition validators_listed (shape : Shape) : bool :=
  let validator := meta_get (Meta_get shape (Some ["validator"])) "validator" in
  negb (meta_truthy validator)
  || match validator with MArray _ => true | _ => false end.

Fixpoint Validator_visit_compiles (shape : Shape) : bool :=
  match shape with
  | UnionShape Items =>
      forallb (fun item => IsInstance_compiles item && validators_listed item
                           && Validator_visit_compiles item) Items
  | LiteralShape Type_ _ => IsInstance_compiles Type_
  | ArrayShape Items | SetShape Items | MapShape Items =>
      validators_listed Items && Validator_visit_compiles Items
  | StructShape Fields =>
      forallb (fun p => validators_listed (snd p) && Validator_visit_compiles (snd p)) Fields
  | Decorated _ target => Validator_visit_compiles target
  | _ => true
  end.

Definition Validator_compiles (shape : Shape) : bool :=
  validators_listed shape && Validator_visit_compiles shape.

(** ** Codecs *)

Record Mapper : Type := mkMapper {
  read : Value -> outcome Value;
  write : Value -> outcome Value
}.

(** What the codecs take from outside the sources at hand: conversions of
    the JavaScript runtime, the converter of the AWS SDK, and three helpers
    of the core package whose source files are not among them. *)
Record Host : Type := mkHost {
  (* [n.toString(10)], [parseInt(s, 10)], [parseFloat(s)] *)
  Number_toString : float -> string;
  parseInt : string -> float;
  parseFloat : string -> float;
  (* [date.toISOString()] of a time value, [Date.parse(s)] *)
  Date_toISOString : float -> outcome string;
  Date_parse : string -> float;
  (* [buffer.toString('base64')], [Buffer.from(s, 'base64')] *)
  Buffer_toBase64 : list Byte.byte -> string;
  Buffer_fromBase64 : string -> list Byte.byte;
  (* [AWS.DynamoDB.Converter.input] and [output] *)
  Converter_input : Value -> outcome Value;
  Converter_output : Value -> outcome Value;
  (* [ValidatingMapper.of(shape, mapper)] *)
  ValidatingMapper_of : Shape -> Mapper -> Mapper;
  (* [new shape(values)], the instance of a struct *)
  construct : Shape -> Value -> outcome Value;
  (* [HashSet.of(shape)] after [add] of each of the values, in order *)
  HashSet_of : Shape -> list Value -> outcome Value
}.

(** Modelled from the spec: [isOptional] of the core package, whose source
    file is not among the sources.  "Field may be absent" is represented as
    a Union containing the Nothing scalar among its variants. *)
Definition isOptional (shape : Shape) : bool :=
  match undecorated shape with
  | UnionShape Items => existsb (fun item => String.eqb (Kind item) "nothingShape") Items
  | _ => false
  end.

(** The wrapper that both codecs put around the mapper of an optional shape. *)
Definition optional_mapper (mapper : Mapper) : Mapper :=
  mkMapper
    (fun v => if is_nullish v then Ok v else read mapper v)
    (fun v => if is_nullish v then Ok v else write mapper v).

(** [v.map(f)] *)
Definition Array_map (what : string) (f : Value -> outcome Value) (v : Value) : outcome Value :=
  match v with
  | VArray items => let* r := traverse f items in Ok (VArray r)
  | VUndefined | VNull => Throw (null_access "map")
  | VBuffer _ => OutOfModel
  | _ => Throw (not_a_function (what ++ ".map"))
  end.

(** The values that [v.forEach] visits *)
Definition forEach_items (what : string) (v : Value) : outcome (list Value) :=
  match v with
  | VArray items | VSet items => Ok items
  | VBuffer bytes => Ok ((fun b => VNumber (float_of_byte b)) <$> bytes)
  | VUndefined | VNull => Throw (null_access "forEach")
  | _ => Throw (not_a_function (what ++ ".forEach"))
  end.

(** The loops [for (const [name, v] of entries) { result[name] = f(name, v); }]
    on a fresh [result]. *)
Fixpoint assign_each {A} (f : string -> A -> outcome Value) (entries : list (string * A))
    (result : list (string * Value)) : outcome (list (string * Value)) :=
  match entries with
  | [] => Ok result
  | (name, x) :: rest =>
      let* y := f name x in
      let* result := assign name y result in
      assign_each f rest result
  end.

Definition assertIsType (type : string) (value : Value) : outcome bool :=
  if negb (String.eqb (typeof value) type) then
    Throw (Err [Text "expected type "; Text type; Text ", but got: "; Text (typeof value)])
  else Ok true.

(** [first_success readers value otherwise]: the loop
    [for (...) { try { return reader(value); } catch (err) { } }] followed by
    [otherwise]. *)
Fixpoint first_success (readers : list (Value -> outcome Value)) (value : Value)
    (otherwise : outcome Value) : outcome Value :=
  match readers with
  | [] => otherwise
  | reader :: rest =>
      try_catch (reader value) (fun _ => first_success rest value otherwise)
  end.

(** The loop [for (...) { if (isType(value)) return mapper.write(value); }]
    followed by [otherwise]. *)
Fixpoint first_instance (items : list ((Value -> outcome bool) * Mapper)) (value : Value)
    (otherwise : outcome Value) : outcome Value :=
  match items with
  | [] => otherwise
  | (isType, mapper) :: rest =>
      let* t := isType value in
      if t then write mapper value else first_instance rest value otherwise
  end.

Section Codecs.

Variable host : Host.

(** *** The attribute codec ([mapper.ts] of the dynamodb package) *)

(** The function as written: the error is built and dropped. *)
Definition assertHasKey (key : string) (value : Value) : outcome bool :=
  let* v := get value key in
  if is_undefined v then
    let* _ := Object_keys value in Ok true
  else Ok true.

(** [Mapper.of(shape, options)] given [resolveShape]; of the options only
    [validate] matters, the cache saves work. *)
Definition Mapper_of_by (resolveShape : Shape -> outcome Mapper) (validate : bool)
    (shape : Shape) : outcome Mapper :=
  let* mapper := resolveShape shape in
  let m := if isOptional shape then optional_mapper mapper else mapper in
  Ok (if validate then ValidatingMapper_of host shape m else m).

Definition number_to_string (what : string) (n : Value) : outcome Value :=
  match n with
  | VNumber x => Ok (VString (Number_toString host x))
  | VUndefined | VNull => Throw (null_access "toString")
  | _ => OutOfModel
  end.

Definition parse_float (n : Value) : outcome Value :=
  match n with
  | VString s => Ok (VNumber (parseFloat host s))
  | _ => OutOfModel
  end.

Definition unsupported (shape : Shape) : Error :=
  Err [Text "Shape "; Text (Kind shape); Text " is not supported by DynamoDB"].

Fixpoint resolveShape (validate : bool) (shape : Shape) {struct shape} : outcome Mapper :=
  match shape with
  | StructShape Members =>
      let* mappers :=
        traverse (fun p => let* m := Mapper_of_by (resolveShape validate) validate (snd p) in
                           Ok (fst p, m)) Members in
      let traverse_ (f : Mapper -> Value -> outcome Value) (value : Value) : outcome Value :=
        let* result :=
          assign_each (fun name mapper =>
              let* v := get_member value name in
              if is_undefined v then Ok VUndefined else f mapper v)
            (spread_over [] mappers) [] in
        Ok (VObject result) in
      let reader := traverse_ read in
      let writer := traverse_ write in
      Ok (mkMapper
            (fun value =>
               let* _ := assertHasKey "M" value in
               let* m := get value "M" in
               let* fields := reader m in
               construct host shape fields)
            (fun value =>
               let* m := writer value in
               Ok (VObject [("M", m)])))
  | ArrayShape Items =>
      let* itemMapper := Mapper_of_by (resolveShape validate) validate Items in
      Ok (mkMapper
            (fun value =>
               let* _ := assertHasKey "L" value in
               let* l := get value "L" in
               Array_map "value.L" (read itemMapper) l)
            (fun value =>
               let* l := Array_map "value" (write itemMapper) value in
               Ok (VObject [("L", l)])))
  | SetShape Items =>
      let kind := Kind Items in
      (* whether [isNumberShape] holds of an Integer shape is not part of the
         sources *)
      if String.eqb kind "integerShape" then OutOfModel else
      if String.eqb kind "stringShape" || String.eqb kind "numberShape"
         || String.eqb kind "binaryShape" || String.eqb kind "enumShape" then
        let stringy := String.eqb kind "stringShape" || String.eqb kind "enumShape" in
        let binary := String.eqb kind "binaryShape" in
        let key := if stringy then "SS" else if binary then "BS" else "NS" in
        let read_ := if stringy || binary then (fun v => Ok v) else parse_float in
        let write_ := if stringy || binary then (fun v => Ok v) else number_to_string "n" in
        Ok (mkMapper
              (fun value =>
                 let* _ := assertHasKey key value in
                 let* items := get value key in
                 if binary then
                   let* vs := forEach_items "value[key]" items in
                   HashSet_of host Items vs
                 else
                   let* mapped := Array_map "value[key]" read_ items in
                   let* vs := Array_from mapped in
                   Ok (new_Set vs))
              (fun value =>
                 let* vs := Array_from value in
                 let* mapped := traverse write_ vs in
                 Ok (VObject [(key, VArray mapped)])))
      else
        Throw (Err [Text "invalid DynamoDB set type: "; InterpKind kind])
  | MapShape Items =>
      let* valueMapper := Mapper_of_by (resolveShape validate) validate Items in
      Ok (mkMapper
            (fun value =>
               let* _ := assertHasKey "M" value in
               let* m := get value "M" in
               let* entries := Object_entries m in
               let* result := assign_each (fun _ v => read valueMapper v) entries [] in
               Ok (VObject result))
            (fun value =>
               let* entries := Object_entries value in
               let* result := assign_each (fun _ v => write valueMapper v) entries [] in
               Ok (VObject [("M", VObject result)])))
  | StringShape | EnumShape _ =>
      Ok (mkMapper
            (fun value =>
               let* _ := assertHasKey "S" value in
               let* s := get value "S" in
               let* _ := assertIsType "string" s in
               Ok s)
            (fun value =>
               let* _ := assertIsType "string" value in
               Ok (VObject [("S", value)])))
  | IntegerShape =>
      Ok (mkMapper
            (fun value =>
               let* _ := assertHasKey "N" value in
               let* n := get value "N" in
               let* _ := assertIsType "string" n in
               match n with
               | VString s => Ok (VNumber (parseInt host s))
               | _ => OutOfModel
               end)
            (fun value =>
               let* _ := assertIsType "number" value in
               let* n := number_to_string "value" value in
               Ok (VObject [("N", n)])))
  | NumberShape =>
      Ok (mkMapper
            (fun value =>
               let* _ := assertHasKey "N" value in
               let* n := get value "N" in
               let* _ := assertIsType "string" n in
               parse_float n)
            (fun value =>
               let* _ := assertIsType "number" value in
               let* n := number_to_string "value" value in
               Ok (VObject [("N", n)])))
  | TimestampShape =>
      Ok (mkMapper
            (fun value =>
               let* _ := assertHasKey "S" value in
               let* s := get value "S" in
               let* _ := assertIsType "string" s in
               match s with
               | VString s => Ok (VDate (Date_parse host s))
               | _ => OutOfModel
               end)
            (fun value =>
               match value with
               | VDate t => let* s := Date_toISOString host t in Ok (VObject [("S", VString s)])
               | VUndefined | VNull => Throw (null_access "toISOString")
               | _ => Throw (not_a_function "value.toISOString")
               end))
  | AnyShape =>
      Ok (mkMapper (Converter_output host) (Converter_input host))
  | BinaryShape =>
      Ok (mkMapper
            (fun value =>
               let* _ := assertHasKey "B" value in
               let* b := get value "B" in
               if negb (isBuffer b) then
                 Throw (Err [Text "expected { B: Buffer }, but got { B: "; Text (typeof b); Text " }"])
               else Ok b)
            (fun B => Ok (VObject [("B", B)])))
  | BoolShape =>
      Ok (mkMapper
            (fun value =>
               let* _ := assertHasKey "BOOL" value in
               get value "BOOL")
            (fun b => Ok (VObject [("BOOL", b)])))
  | UnionShape Items =>
      let* items :=
        traverse (fun item => let* m := Mapper_of_by (resolveShape true) true item in
                              Ok (IsInstance_of item, m)) Items in
      let kinds := join_with "," (Kind <$> Items) in
      Ok (mkMapper
            (fun value =>
               first_success (map (fun p => read (snd p)) items) value
                 (let* keys := Object_keys value in
                  Throw (Err [Text "failed to read DDB union type: "; Text kinds;
                              Text ", but got "; Text (join_with "" keys)])))
            (fun value =>
               first_instance items value
                 (let* keys := Object_keys value in
                  Throw (Err [Text "failed to write DDB union type: "; Text kinds;
                              Text ", but got "; Text (join_with "" keys)]))))
  | LiteralShape Type_ _ =>
      Mapper_of_by (resolveShape true) true Type_
  | NothingShape =>
      Ok (mkMapper
            (fun _ => Ok VUndefined)
            (fun _ => Ok (VObject [("NULL", VBool true)])))
  | NeverShape | FunctionShape _ _ => Throw (unsupported shape)
  | Decorated _ target => resolveShape validate target
  end.

Definition Mapper_of (validate : bool) (shape : Shape) : outcome Mapper :=
  Mapper_of_by (resolveShape validate) validate shape.

(** *** The JSON codec ([mapper.ts] of the json package) *)

(** [Json.mapper(shape, options)] given the visitor.  Note the order: the
    optional wrapper goes around the validating mapper. *)
Definition Json_mapper_by (visit : Shape -> outcome Mapper) (validate : bool)
    (shape : Shape) : outcome Mapper :=
  let* mapper := visit shape in
  let mapper := if validate then ValidatingMapper_of host shape mapper else mapper in
  Ok (if isOptional shape then optional_mapper mapper else mapper).

Definition primitive_set_item (kind : string) : bool :=
  String.eqb kind "stringShape" || String.eqb kind "numberShape"
  || String.eqb kind "integerShape" || String.eqb kind "boolShape".

(** [Json.MapperVisitor] *)
Fixpoint Json_visit (shape : Shape) {struct shape} : outcome Mapper :=
  match shape with
  | EnumShape Values =>
      let isInstance := IsInstance_of shape in
      Ok (mkMapper
            (fun s =>
               let* t := isInstance s in
               if t then Ok s
               else Throw (Err [Text "expected a value of the enum, ";
                                Text (join_with "," (snd <$> Values))]))
            (fun s => Ok s))
  | LiteralShape Type_ Value_ =>
      let* valueMapper := Json_visit Type_ in
      let isEqual := Equals_of Type_ in
      let* literalValue := write valueMapper Value_ in
      Ok (mkMapper
            (fun a =>
               let* v := read valueMapper a in
               let* e := isEqual a Value_ in
               if negb e then Throw (Err [Text "expected literal value: "; Interp Value_])
               else Ok Value_)
            (fun _ => Ok literalValue))
  | UnionShape Items =>
      let* items :=
        traverse (fun item => let* m := Json_mapper_by Json_visit false item in
                              Ok (IsInstance_of item, m)) Items in
      Ok (mkMapper
            (fun a =>
               first_success (map (fun p => read (snd p)) items) a
                 (Throw (Err [Text "expected a value of "; InterpKind (Kind shape);
                              Text ", but got: "; Interp a])))
            (fun value =>
               first_instance items value
                 (Throw (Err [Text "expected one of union type: "; InterpKind (Kind shape);
                              Text ", but got: "; Interp value]))))
  | NeverShape => Throw (Err [Text "NeverShape is not supported by JSON"])
  | FunctionShape _ _ => Throw (Err [Text "FunctionShape is not supported by JSON"])
  | NothingShape =>
      Ok (mkMapper
            (fun a =>
               if is_nullish a then Ok VNull
               else Throw (Err [Text "expected null or undefined, got "; Text (typeof a);
                                Text ", "; Interp a]))
            (fun _ => Ok VNull))
  | AnyShape => Ok (mkMapper (fun a => Ok a) (fun a => Ok a))
  | BinaryShape =>
      Ok (mkMapper
            (fun b =>
               match b with
               | VString s => Ok (VBuffer (Buffer_fromBase64 host s))
               | _ => Throw (Err [Text "expected base64 encoded string for Binary Payload"])
               end)
            (fun b =>
               match b with
               | VBuffer bytes => Ok (VString (Buffer_toBase64 host bytes))
               | VString s => Ok b
               | VUndefined | VNull => Throw (null_access "toString")
               | _ => OutOfModel
               end))
  | ArrayShape Items =>
      let* item := Json_mapper_by Json_visit false Items in
      Ok (mkMapper
            (fun arr => Array_map "arr" (read item) arr)
            (fun arr => Array_map "arr" (write item) arr))
  | BoolShape =>
      Ok (mkMapper
            (fun b =>
               if negb (String.eqb (typeof b) "boolean") then
                 Throw (Err [Text "expected boolean but got "; Text (typeof b)])
               else Ok b)
            (fun b => Ok b))
  | StructShape Fields =>
      let* fields :=
        traverse (fun p => let* m := Json_mapper_by Json_visit false (snd p) in
                           Ok (fst p, m)) Fields in
      let fields := spread_over [] fields in
      Ok (mkMapper
            (fun value =>
               if negb (String.eqb (typeof value) "object") then
                 Throw (Err [Text "expected object but got "; Text (typeof value)])
               else
                 let* res := assign_each (fun name codec =>
                                 let* v := get_member value name in read codec v) fields [] in
                 construct host shape (VObject res))
            (fun value =>
               let* res := assign_each (fun name codec =>
                               let* v := get_member value name in write codec v) fields [] in
               Ok (VObject res)))
  | MapShape Items =>
      let* valueMapper := Json_mapper_by Json_visit false Items in
      Ok (mkMapper
            (fun map =>
               let* entries := Object_entries map in
               let* res := assign_each (fun name _ =>
                               let* v := get map name in read valueMapper v) entries [] in
               Ok (VObject res))
            (fun map =>
               let* entries := Object_entries map in
               let* res := assign_each (fun name _ =>
                               let* v := get map name in write valueMapper v) entries [] in
               Ok (VObject res)))
  | NumberShape =>
      Ok (mkMapper
            (fun n =>
               if negb (String.eqb (typeof n) "number") then
                 Throw (Err [Text "expected number but got "; Text (typeof n)])
               else Ok n)
            (fun n => Ok n))
  | IntegerShape =>
      Ok (mkMapper
            (fun n =>
               match n with
               | VNumber x =>
                   if negb (is_whole x) then Throw (Err [Text "expected integer, got: "; Interp n])
                   else Ok n
               | _ => Throw (Err [Text "expected number but got "; Text (typeof n)])
               end)
            (fun n => Ok n))
  | SetShape Items =>
      let* item := Json_mapper_by Json_visit false Items in
      Ok (mkMapper
            (fun arr =>
               let* items := forEach_items "arr" arr in
               let* vs := traverse (read item) items in
               if primitive_set_item (Kind Items) then Ok (new_Set vs)
               else HashSet_of host Items vs)
            (fun arr =>
               let* items := Array_from arr in
               let* vs := traverse (write item) items in
               Ok (VArray vs)))
  | StringShape =>
      Ok (mkMapper
            (fun s =>
               if negb (String.eqb (typeof s) "string") then
                 Throw (Err [Text "expected string but got "; Text (typeof s)])
               else Ok s)
            (fun s => Ok s))
  | TimestampShape =>
      Ok (mkMapper
            (fun d =>
               match d with
               | VString s => Ok (VDate (Date_parse host s))
               | _ => Throw (Err [Text "expected string for timestamp, but got "; Text (typeof d)])
               end)
            (fun d =>
               match d with
               | VDate t => let* s := Date_toISOString host t in Ok (VString s)
               | VUndefined | VNull => Throw (null_access "toISOString")
               | _ => Throw (not_a_function "d.toISOString")
               end))
  | Decorated _ target => Json_visit target
  end.

Definition Json_mapper (validate : bool) (shape : Shape) : outcome Mapper :=
  Json_mapper_by Json_visit validate shape.

End Codecs.

(** ** Sample shapes and values *)

(** A struct with an optional field. *)
Definition optional_count : Shape :=
  StructShape [("id", StringShape); ("count", UnionShape [NumberShape; NothingShape])].




(** A host for the closed examples.  None of them looks at a number, a date
    or binary data, so these conversions are placeholders; the validating
    mapper runs the compiled validator on the value read and on the value to
    write, and fails when it reports a diagnostic. *)
Definition assertIsValid (shape : Shape) (a : Value) : outcome Value :=
  let* errors := Validator_of shape a [Text "$"] in
  match errors with
  | [] => Ok a
  | _ => Throw (Err [Text "validation failed"])
  end.

Definition sample_host : Host :=
  mkHost
    (fun _ => "0") (fun _ => nan) (fun _ => nan)
    (fun _ => Throw (RangeError "Invalid time value")) (fun _ => nan)
    (fun _ => "") (fun _ => [])
    (fun _ => OutOfModel) (fun _ => OutOfModel)
    (fun shape mapper =>
       mkMapper (fun a => let* v := read mapper a in assertIsValid shape v)
                (fun a => let* v := assertIsValid shape a in write mapper v))
    (fun _ values => Ok values)
    (fun _ values => Ok (new_Set values)).

(** The reading back of what a mapper writes, and the round-trip property
    of a mapper at a value: writing succeeds, reading the written value back
    succeeds, and the result is equal to the value under the given equality. *)
Definition round_trips (equals : Value -> Value -> outcome bool) (m : Mapper) (V : Value) : Prop :=
  exists w r, write m V = Ok w /\ read m w = Ok r /\ equals r V = Ok true.


















(** A documented map of lists of numbers, and a value of it. *)
Definition readings_by_name : Shape :=
  Decorated (MObject [("doc", MString "readings")])
    (MapShape (ArrayShape NumberShape)).


(** ** Constraint traits ([validation.ts]) *)

(** [MakeValidator(validator)]: the metadata of a trait that only carries a
    validator. *)
Definition MakeValidator (validator : ValidatorFn) : Metadata :=
  MObject [("validator", MArray [MFunction validator])].

(** ** Invariants and classes of values used in the properties *)

(** The value table of a namespace holds exactly the ids [:1] ... [:n] that
    the counter has handed out, and does not exist before the first one. *)
Definition values_inv (ns : Writer.Namespace) : Prop :=
  match Writer.values ns with
  | None => Writer.valuesCounter ns = 0%N
  | Some m =>
      (0 < Writer.valuesCounter ns)%N /\
      forall t, is_Some (m !! t) <->
        exists k, (1 <= k <= Writer.valuesCounter ns)%N /\ t = ":" ++ pretty k
  end.

(** The values built from undefined, booleans, strings, numbers other than
    NaN, arrays and plain objects with pairwise distinct names. *)
Fixpoint self_comparable (v : Value) : bool :=
  match v with
  | VUndefined | VBool _ | VString _ => true
  | VNumber n => PrimFloat.eqb n n
  | VArray items => forallb self_comparable items
  | VObject props =>
      bool_decide (NoDup (fst <$> props))
      && forallb (fun p => self_comparable (snd p)) props
  | VNull | VSet _ | VBuffer _ | VDate _ => false
  end.

(** A Never or a Function shape, possibly inside Lists, Maps, Literals and
    decorations. *)
Fixpoint wraps_unsupported (shape : Shape) : bool :=
  match shape with
  | NeverShape | FunctionShape _ _ => true
  | ArrayShape Items | MapShape Items => wraps_unsupported Items
  | LiteralShape Type_ _ => wraps_unsupported Type_
  | Decorated _ target => wraps_unsupported target
  | _ => false
  end.

(** * Part II: properties *)

(** ** Outcomes *)

Lemma bind_Ok {A B} (m : outcome A) (f : A -> outcome B) (b : B) :
  bind m f = Ok b -> exists a, m = Ok a /\ f a = Ok b.
Proof. destruct m; simpl; intros H; try discriminate. eauto. Qed.

(** ** The update-expression writer *)

Module WriterProofs.
Import Writer.

Lemma call_tokens w c w' :
  call w c = Ok w' -> exists t, tokens w' = (tokens w ++ [t])%list.
Proof.
  destruct c as [t|n|v]; simpl.
  - intros [= <-]. by exists t.
  - unfold writeName. intros H. apply bind_Ok in H as ([alias ns] & _ & [= <-]).
    by exists alias.
  - unfold writeValue. destruct (addValue _ _) as [id ns]. intros [= <-]. by exists id.
Qed.

Lemma run_app cs1 : forall cs2 w,
  run w (cs1 ++ cs2) = bind (run w cs1) (fun w1 => run w1 cs2).
Proof.
  induction cs1 as [|c cs1 IH]; simpl; intros cs2 w; [done|].
  destruct (call w c) as [w1| |]; simpl; auto.
Qed.

Lemma value_ids_cons (c : N) (n : nat) :
  (fun k => ":" ++ pretty (c + N.of_nat k)%N) <$> seq 1 (S n)
  = (":" ++ pretty (c + 1)%N)
      :: ((fun k => ":" ++ pretty (c + 1 + N.of_nat k)%N) <$> seq 1 n).
Proof.
  simpl. f_equal. rewrite <- fmap_S_seq, <- list_fmap_compose.
  apply list_fmap_ext. intros _ k _. simpl. do 2 f_equal. lia.
Qed.

Lemma token_inj (p : string) (a b : N) : p ++ pretty a = p ++ pretty b -> a = b.
Proof.
  intros H. apply (inj pretty).
  induction p as [|ch p IH]; simpl in H; [done|].
  injection H as H. auto.
Qed.

(** Every [WriteValue] call takes the next value id, whatever the other
    calls do. *)
Lemma run_value_tokens cs : forall w w',
  run w cs = Ok w' ->
  let n := length (filter (fun c => is_WriteValue c = true) cs) in
  exists ts,
    tokens w' = (tokens w ++ ts)%list /\ length ts = length cs /\
    valuesCounter (namespace w') = (valuesCounter (namespace w) + N.of_nat n)%N /\
    value_tokens cs ts
    = (fun k => ":" ++ pretty (valuesCounter (namespace w) + N.of_nat k)%N) <$> seq 1 n.
Proof.
  induction cs as [|c cs IH]; intros w w' H.
  - injection H as <-. exists []. simpl. rewrite app_nil_r.
    repeat split; auto. lia.
  - simpl in H. apply bind_Ok in H as (w1 & Hc & Hr).
    destruct (IH _ _ Hr) as (ts & Hts & Hlen & Hcnt & Hvt). clear IH.
    destruct c as [t|name|v]; simpl in Hc.
    + injection Hc as <-. exists (t :: ts). simpl in *.
      rewrite Hts, <- app_assoc. repeat split; auto.
    + unfold writeName in Hc. apply bind_Ok in Hc as ([alias ns] & Ha & [= <-]).
      exists (alias :: ts). simpl in *. rewrite Hts, <- app_assoc.
      assert (valuesCounter ns = valuesCounter (namespace w)) as Hsame.
      { unfold addName in Ha.
        destruct (aliases (namespace w)), (aliasReverseLookup (namespace w)); simpl in Ha;
          repeat case_match; simplify_eq; done. }
      rewrite Hsame in *. repeat split; auto.
    + unfold writeValue, addValue in Hc. simpl in Hc. injection Hc as <-.
      exists ((":" ++ pretty (valuesCounter (namespace w) + 1)%N) :: ts).
      simpl in Hts, Hcnt, Hvt.
      rewrite filter_cons_True by done.
      cbn [length]. rewrite value_ids_cons.
      repeat split.
      * by rewrite Hts, <- app_assoc.
      * simpl; lia.
      * rewrite Hcnt. lia.
      * unfold value_tokens in *. cbn [zip zip_with].
        rewrite filter_cons_True by done. rewrite fmap_cons. f_equal. exact Hvt.
Qed.

Lemma alias_of_inj i j : alias_of i = alias_of j -> i = j.
Proof. unfold alias_of. intros H. apply token_inj in H. lia. Qed.

Lemma names_inv_new : names_inv new_Namespace [].
Proof. repeat split; simpl; auto. constructor. Qed.

Lemma addValue_names_inv ns v seen :
  names_inv ns seen -> names_inv (snd (addValue ns v)) seen.
Proof. by unfold names_inv, addValue. Qed.

Lemma addName_known ns seen name i :
  names_inv ns seen -> seen !! i = Some name ->
  addName ns name = Ok (alias_of i, ns).
Proof.
  intros (Hnd & Hc & Ht) Hi. unfold addName.
  destruct (aliases ns) as [al|] eqn:Hal.
  - destruct (aliasReverseLookup ns) as [rev|] eqn:Hrev; [|done].
    cbv zeta. rewrite Hal. destruct Ht as [Hr _].
    assert (rev !! name = Some (alias_of i)) as -> by (apply Hr; eauto).
    done.
  - subst seen. done.
Qed.

Lemma inherited_member_None (name : string) :
  inherited_member name = None <-> inherited name = false.
Proof.
  unfold inherited_member.
  destruct (String.eqb name "__proto__") eqn:H1.
  { apply String.eqb_eq in H1 as ->. by split. }
  destruct (String.eqb name "constructor") eqn:H2.
  { apply String.eqb_eq in H2 as ->. by split. }
  by destruct (inherited name).
Qed.

Lemma addName_fresh ns seen name :
  names_inv ns seen -> name ∉ seen -> inherited_member name = None ->
  exists ns', addName ns name = Ok (alias_of (length seen), ns') /\
              names_inv ns' (seen ++ [name]).
Proof.
  intros (Hnd & Hc & Ht) Hfresh Hown. unfold addName. rewrite Hown.
  assert (NoDup (seen ++ [name])) as Hnd'.
  { apply NoDup_app. repeat split; auto.
    - intros x Hx ->%list_elem_of_singleton. done.
    - apply NoDup_singleton. }
  destruct (aliases ns) as [al|] eqn:Hal.
  - destruct (aliasReverseLookup ns) as [rev|] eqn:Hrev; [|done].
    cbv zeta. rewrite Hal. destruct Ht as [Hr Ha].
    destruct (rev !! name) as [t|] eqn:Hlk.
    { apply Hr in Hlk as (i & Hi & _). exfalso. apply Hfresh.
      eapply list_elem_of_lookup_2; eauto. }
    unfold newNameAlias. simpl. rewrite Hc.
    replace (N.of_nat (length seen) + 1)%N with (N.of_nat (S (length seen))) by lia.
    fold (alias_of (length seen)).
    eexists. split; [reflexivity|].
    split; [done|]. split; [simpl; rewrite length_app; simpl; lia|].
    simpl. split.
    + intros n t. rewrite lookup_insert. case_decide as Hn.
      * subst n. split.
        -- intros [= <-]. exists (length seen). split; [|done].
           by rewrite lookup_app_r, Nat.sub_diag by lia.
        -- intros (i & Hi & ->). f_equal.
           assert (i = length seen) as -> ; [|done].
           eapply NoDup_lookup; eauto.
           by rewrite lookup_app_r, Nat.sub_diag by lia.
      * rewrite Hr. split.
        -- intros (i & Hi & ->). exists i. split; [|done].
           by apply lookup_app_l_Some.
        -- intros (i & Hi & ->). exists i. split; [|done].
           apply lookup_app_Some in Hi as [Hi|[_ Hi]]; [done|].
           apply list_lookup_singleton_Some in Hi as [_ ?]. congruence.
    + intros t n. rewrite lookup_insert. case_decide as Hn.
      * subst t. split.
        -- intros [= <-]. exists (length seen). split; [|done].
           by rewrite lookup_app_r, Nat.sub_diag by lia.
        -- intros (i & Hi & Heq). apply alias_of_inj in Heq. subst i.
           rewrite lookup_app_r, Nat.sub_diag in Hi by lia. simpl in Hi. congruence.
      * rewrite Ha. split.
        -- intros (i & Hi & ->). exists i. split; [|done].
           by apply lookup_app_l_Some.
        -- intros (i & Hi & ->). exists i. split; [|done].
           apply lookup_app_Some in Hi as [Hi|[Hge Hi]]; [done|].
           apply list_lookup_singleton_Some in Hi as [Hz ?].
           exfalso. apply Hn. f_equal. lia.
  - subst seen. simpl in Hc. unfold newNameAlias. simpl. rewrite Hc. simpl.
    eexists. split; [reflexivity|].
    split; [done|]. split; [done|]. simpl. split.
    + intros n t. rewrite lookup_insert. case_decide as Hn.
      * subst n. split; [intros [= <-]; by exists 0|].
        intros (i & Hi & ->). apply list_lookup_singleton_Some in Hi as [-> _]. done.
      * rewrite lookup_empty. split; [done|].
        intros (i & Hi & _). apply list_lookup_singleton_Some in Hi as [_ ?]. congruence.
    + intros t n. rewrite lookup_insert. case_decide as Hn.
      * subst t. split; [intros [= <-]; by exists 0|].
        intros (i & Hi & Heq). apply (alias_of_inj 0) in Heq. subst i.
        simpl in Hi. congruence.
      * rewrite lookup_empty. split; [done|].
        intros (i & Hi & ->). apply list_lookup_singleton_Some in Hi as [-> _]. done.
Qed.

(** A name that is not recorded and names an inherited member: the member
    is returned, and nothing is recorded. *)
Lemma addName_inherited ns seen name member :
  names_inv ns seen -> name ∉ seen -> inherited_member name = Some member ->
  exists ns', addName ns name = Ok (member, ns') /\ names_inv ns' seen.
Proof.
  intros (Hnd & Hc & Ht) Hfresh Hin. unfold addName. rewrite Hin.
  destruct (aliases ns) as [al|] eqn:Hal.
  - destruct (aliasReverseLookup ns) as [rev|] eqn:Hrev; [|done].
    cbv zeta. rewrite Hal. destruct Ht as [Hr Ha].
    destruct (rev !! name) as [t|] eqn:Hlk.
    { apply Hr in Hlk as (i & Hi & _). exfalso. apply Hfresh.
      eapply list_elem_of_lookup_2; eauto. }
    exists ns. split; [done|]. split; [done|]. split; [done|].
    by rewrite Hal, Hrev.
  - subst seen. simpl. rewrite lookup_empty.
    eexists. split; [reflexivity|]. split; [done|]. split; [done|]. simpl. split.
    + intros n t. rewrite lookup_empty. split; [done|]. by intros (i & Hi & _).
    + intros t n. rewrite lookup_empty. split; [done|]. by intros (i & Hi & _).
Qed.

Lemma names_of_cons c cs : names_of (c :: cs) = (names_of [c] ++ names_of cs)%list.
Proof. unfold names_of. destruct c; done. Qed.

Lemma addName_total ns seen name :
  names_inv ns seen ->
  exists t ns' seen',
    addName ns name = Ok (t, ns') /\ names_inv ns' seen' /\
    seen `prefix_of` seen' /\
    (forall x, x ∈ seen' <-> x ∈ seen \/ (x = name /\ inherited_member name = None)) /\
    ((exists j, seen' !! j = Some name /\ t = alias_of j) \/
     ((name ∉ seen') /\ inherited_member name = Some t)).
Proof.
  intros Hinv. destruct (decide (name ∈ seen)) as [Hin|Hnin].
  - apply list_elem_of_lookup_1 in Hin as Hj. destruct Hj as [j Hj].
    exists (alias_of j), ns, seen. split_and!; eauto using addName_known.
    split; [auto|]. intros [?|[-> _]]; done.
  - destruct (inherited_member name) as [member|] eqn:Hmem.
    + destruct (addName_inherited _ _ _ _ Hinv Hnin Hmem) as (ns' & Hadd & Hinv').
      exists member, ns', seen. split_and!; auto.
      intros x. split; [auto|]. by intros [?|[_ ?]].
    + destruct (addName_fresh _ _ _ Hinv Hnin Hmem) as (ns' & Hadd & Hinv').
      exists (alias_of (length seen)), ns', (seen ++ [name])%list.
      split_and!; auto.
      * by apply prefix_app_r.
      * intros x. rewrite elem_of_app, list_elem_of_singleton. tauto.
      * left. exists (length seen). split; [|done].
        by rewrite lookup_app_r, Nat.sub_diag by lia.
Qed.

(** A run never fails from a namespace whose tables are consistent.  Every
    [WriteName] call writes the alias that the final tables give its name,
    or, for a name that is not recorded and names an inherited member, that
    member; only names that are not names of inherited members are
    recorded. *)
Lemma run_names cs : forall w seen,
  names_inv (namespace w) seen ->
  exists w' seen' ts,
    run w cs = Ok w' /\ names_inv (namespace w') seen' /\
    seen `prefix_of` seen' /\
    (forall x, x ∈ seen' <-> x ∈ seen \/ (x ∈ names_of cs /\ inherited_member x = None)) /\
    tokens w' = (tokens w ++ ts)%list /\ length ts = length cs /\
    forall i name, cs !! i = Some (WriteName name) ->
      (exists j, seen' !! j = Some name /\ ts !! i = Some (alias_of j)) \/
      ((name ∉ seen') /\ exists member,
         inherited_member name = Some member /\ ts !! i = Some member).
Proof.
  induction cs as [|c cs IH]; intros w seen Hinv.
  - exists w, seen, []. simpl. rewrite app_nil_r. split_and!; auto.
    + intros x. split; [auto|]. intros [?|[?%elem_of_nil _]]; done.
    + intros i name Hi. by rewrite lookup_nil in Hi.
  - assert (exists w1 seen1 t,
      call w c = Ok w1 /\ names_inv (namespace w1) seen1 /\
      seen `prefix_of` seen1 /\
      (forall x, x ∈ seen1 <->
                 x ∈ seen \/ (x ∈ names_of [c] /\ inherited_member x = None)) /\
      tokens w1 = (tokens w ++ [t])%list /\
      forall name, c = WriteName name ->
        (exists j, seen1 !! j = Some name /\ t = alias_of j) \/
        ((name ∉ seen1) /\ inherited_member name = Some t))
      as (w1 & seen1 & t & Hc & Hinv1 & Hpre1 & Hel1 & Ht1 & Hn1).
    { destruct c as [t|name|v]; simpl.
      - exists (writeToken w t), seen, t. split_and!; auto; [|done].
        intros x. split; [auto|]. intros [?|[?%elem_of_nil _]]; done.
      - destruct (addName_total _ _ name Hinv)
          as (t & ns' & seen' & Hadd & Hinv' & Hpre & Hel & Ht).
        unfold writeName. rewrite Hadd. simpl.
        eexists _, seen', _. split_and!; eauto.
        + intros x. rewrite Hel, list_elem_of_singleton. split.
          * intros [?|[-> ?]]; auto.
          * intros [?|[-> ?]]; auto.
        + by intros n [= <-].
      - exists (writeValue w v), seen, (fst (addValue (namespace w) v)).
        split_and!; auto; [|done].
        intros x. split; [auto|]. intros [?|[?%elem_of_nil _]]; done. }
    destruct (IH w1 seen1 Hinv1) as (w' & seen' & ts & Hr & Hinv' & Hpre & Hel & Hts & Hlen & Hn).
    exists w', seen', (t :: ts). cbn [run]. rewrite Hc. cbn [bind].
    split_and!; auto.
    + by etrans.
    + intros x. rewrite Hel, Hel1, (names_of_cons c cs), elem_of_app. tauto.
    + by rewrite Hts, Ht1, <- app_assoc.
    + simpl; lia.
    + intros [|i] name Hi; simpl in Hi.
      * injection Hi as ->. destruct (Hn1 name eq_refl) as [(j & Hj & ->)|[Hnin Hmem]].
        -- left. exists j. split; [|done].
           destruct Hpre as [k ->]. by apply lookup_app_l_Some.
        -- right. split; [|by exists t].
           intros Hx. apply Hel in Hx as [Hx|[_ Hx]]; [done|congruence].
      * simpl. eauto.
Qed.

Lemma recorded_names_elem (cs : list Call) (x : string) :
  x ∈ recorded_names_of cs <-> x ∈ names_of cs /\ inherited_member x = None.
Proof.
  unfold recorded_names_of. rewrite list_elem_of_filter, inherited_member_None. tauto.
Qed.

Lemma inherited_member_not_alias (name member : string) (j : nat) :
  inherited_member name = Some member -> member <> alias_of j.
Proof.
  unfold inherited_member, alias_of.
  destruct (String.eqb name "__proto__"); [by intros [= <-]|].
  destruct (String.eqb name "constructor"); [by intros [= <-]|].
  destruct (inherited name); [by intros [= <-]|done].
Qed.

Lemma inherited_cases (name : string) :
  inherited name = true -> name ∈ Object_prototype_members.
Proof.
  unfold inherited. intros (k & Hk & ->%String.eqb_eq)%existsb_exists.
  by apply list_elem_of_In.
Qed.

Lemma inherited_member_inj (n1 n2 member : string) :
  inherited_member n1 = Some member -> inherited_member n2 = Some member -> n1 = n2.
Proof.
  intros H1 H2.
  assert (Hi1 : inherited n1 = true).
  { destruct (inherited n1) eqn:E; [done|]. apply inherited_member_None in E. congruence. }
  assert (Hi2 : inherited n2 = true).
  { destruct (inherited n2) eqn:E; [done|]. apply inherited_member_None in E. congruence. }
  apply inherited_cases in Hi1, Hi2. unfold Object_prototype_members in Hi1, Hi2.
  repeat (apply elem_of_cons in Hi1 as [->|Hi1]);
    try (by apply elem_of_nil in Hi1);
    repeat (apply elem_of_cons in Hi2 as [->|Hi2]);
    try (by apply elem_of_nil in Hi2);
    first [reflexivity | (vm_compute in H1, H2; congruence)].
Qed.

(** C6: a field path that is the name of a member of [Object.prototype]
    gets no alias.  The reverse table is a plain object, so the look-up of
    such a path ([toString], [constructor], ...) finds the inherited member:
    it is written as the token, no [#k] is allotted and the table of names
    gets no entry.  For every other path the tables work as the claim says:
    two requests for the same path write the identical token; a path
    requested for the first time gets the token [#k] where [k] is one more
    than the number of distinct recorded paths requested before it; and
    distinct paths never share a token.  The compilation itself never
    fails. *)
Theorem inherited_name_gets_no_alias :
  (exists w, run new_Writer [WriteName "toString"] = Ok w /\
     tokens w = ["function toString() { [native code] }"] /\
     ExpressionAttributeNames (toExpression w) = Some ∅) /\
  forall cs : list Call,
  exists w, run new_Writer cs = Ok w /\
    (forall i name,
        cs !! i = Some (WriteName name) -> inherited name = true ->
        (exists member, inherited_member name = Some member /\
                        tokens w !! i = Some member /\
                        forall k : N, member <> "#" ++ pretty k) /\
        forall al t, ExpressionAttributeNames (toExpression w) = Some al ->
                     al !! t <> Some name) /\
    (forall i j name,
        cs !! i = Some (WriteName name) -> cs !! j = Some (WriteName name) ->
        tokens w !! i = tokens w !! j) /\
    (forall i name,
        cs !! i = Some (WriteName name) -> inherited name = false ->
        name ∉ names_of (take i cs) ->
        tokens w !! i
        = Some ("#" ++ pretty (N.of_nat (S (length (remove_dups
                                                      (recorded_names_of (take i cs)))))))) /\
    (forall i j n1 n2,
        cs !! i = Some (WriteName n1) -> cs !! j = Some (WriteName n2) ->
        n1 <> n2 -> tokens w !! i <> tokens w !! j).
Proof.
  split.
  { eexists. split; [reflexivity|]. split; reflexivity. }
  intros cs.
  destruct (run_names cs new_Writer [] names_inv_new)
    as (w & seen & ts & Hrun & Hinv & _ & Hel & Hts & Hlen & Htok).
  simpl in Hts. subst ts. exists w. split; [done|].
  assert (NoDup seen) as Hnd by apply Hinv.
  assert (Hseen : forall x, x ∈ seen -> inherited x = false).
  { intros x Hx. apply Hel in Hx as [?%elem_of_nil|[_ Hx]]; [done|].
    by apply inherited_member_None. }
  split_and!.
  - intros i name Hi Hinh.
    assert (Hnin : name ∉ seen).
    { intros Hx. apply Hseen in Hx. congruence. }
    destruct (Htok _ _ Hi) as [(j & Hj & _)|(_ & member & Hmem & Ht)].
    { exfalso. apply Hnin. by eapply list_elem_of_lookup_2. }
    split.
    + exists member. split_and!; [done..|].
      intros k Heq. unfold inherited_member in Hmem.
      destruct (String.eqb name "__proto__"); [by injection Hmem as <-|].
      destruct (String.eqb name "constructor"); [by injection Hmem as <-|].
      destruct (inherited name); [by injection Hmem as <-|done].
    + intros al t Hal Hlk. unfold toExpression in Hal. cbn [ExpressionAttributeNames] in Hal.
      destruct Hinv as (_ & _ & Htab). rewrite Hal in Htab.
      destruct (aliasReverseLookup (namespace w)); [|done].
      apply Htab in Hlk as (j & Hj & _). apply Hnin. by eapply list_elem_of_lookup_2.
  - intros i j name Hi Hj.
    destruct (Htok _ _ Hi) as [(a & Ha & ->)|(Hna & ma & Hma & ->)];
      destruct (Htok _ _ Hj) as [(b & Hb & ->)|(Hnb & mb & Hmb & ->)].
    + by rewrite (NoDup_lookup _ _ _ _ Hnd Ha Hb).
    + exfalso. apply Hnb. by eapply list_elem_of_lookup_2.
    + exfalso. apply Hna. by eapply list_elem_of_lookup_2.
    + congruence.
  - intros i name Hi Hown%inherited_member_None Hfresh.
    pose proof (take_drop_middle _ _ _ Hi) as Hsplit.
    destruct (run_names (take i cs) new_Writer [] names_inv_new)
      as (w1 & seen1 & ts1 & Hrun1 & Hinv1 & _ & Hel1 & Hts1 & Hlen1 & _).
    simpl in Hts1.
    assert (name ∉ seen1) as Hnin.
    { intros Hx. apply Hel1 in Hx as [?%elem_of_nil|[? _]]; done. }
    destruct (addName_fresh _ _ _ Hinv1 Hnin Hown) as (ns2 & Hadd & Hinv2).
    destruct (run_names (drop (S i) cs)
                (writeToken (mkWriter (tokens w1) ns2) (alias_of (length seen1)))
                _ Hinv2)
      as (w3 & seen3 & ts3 & Hrun3 & _ & _ & _ & Hts3 & _ & _).
    assert (run new_Writer cs = Ok w3) as Hrun'.
    { rewrite <- Hsplit, run_app, Hrun1. simpl.
      unfold writeName. rewrite Hadd. simpl. exact Hrun3. }
    rewrite Hrun in Hrun'. injection Hrun' as ->.
    rewrite Hts3. simpl. rewrite Hts1.
    assert (length ts1 = i) as Hi1.
    { rewrite Hlen1, length_take. apply lookup_lt_Some in Hi. lia. }
    rewrite <- app_assoc, lookup_app_r by lia.
    rewrite Hi1, Nat.sub_diag. simpl. unfold alias_of. do 5 f_equal.
    apply Permutation_length, NoDup_Permutation.
    + apply Hinv1.
    + apply NoDup_remove_dups.
    + intros x. rewrite Hel1, elem_of_remove_dups, recorded_names_elem.
      split; [intros [?%elem_of_nil|?]; done | auto].
  - intros i j n1 n2 Hi Hj Hne.
    destruct (Htok _ _ Hi) as [(a & Ha & ->)|(Hna & ma & Hma & ->)];
      destruct (Htok _ _ Hj) as [(b & Hb & ->)|(Hnb & mb & Hmb & ->)].
    + intros Heq. apply (inj Some), alias_of_inj in Heq. subst b. congruence.
    + intros [= Heq]. symmetry in Heq. by apply (inherited_member_not_alias _ _ a) in Hmb.
    + intros [= Heq]. by apply (inherited_member_not_alias _ _ b) in Hma.
    + intros [= <-]. apply Hne. by eapply inherited_member_inj.
Qed.

Lemma addName_values ns name t ns' :
  addName ns name = Ok (t, ns') ->
  values ns' = values ns /\ valuesCounter ns' = valuesCounter ns.
Proof.
  unfold addName.
  destruct (aliases ns), (aliasReverseLookup ns); simpl;
    repeat case_match; intros; simplify_eq; done.
Qed.

(** Later calls leave the entries of the value table in place. *)
Lemma run_values_kept cs : forall w w',
  run w cs = Ok w' ->
  forall (k : N) v m,
    (k <= valuesCounter (namespace w))%N ->
    values (namespace w) = Some m -> m !! (":" ++ pretty k) = Some v ->
    exists m', values (namespace w') = Some m' /\ m' !! (":" ++ pretty k) = Some v.
Proof.
  induction cs as [|c cs IH]; intros w w' H k v m Hk Hm Hv.
  - injection H as <-. eauto.
  - simpl in H. apply bind_Ok in H as (w1 & Hc & Hr).
    destruct c as [t|name|v']; simpl in Hc.
    + injection Hc as <-. eapply IH; eauto.
    + unfold writeName in Hc. apply bind_Ok in Hc as ([alias ns] & Ha & [= <-]).
      apply addName_values in Ha as [Hvs Hcnt].
      eapply (IH _ _ Hr k v m); simpl; [by rewrite Hcnt | by rewrite Hvs | done].
    + injection Hc as <-.
      eapply (IH _ _ Hr k v); simpl; [lia | reflexivity |].
      rewrite Hm. simpl. rewrite lookup_insert_ne; [done|].
      intros Heq%token_inj. lia.
Qed.

(** Every literal operand is in the value table under the token written
    for it. *)
Lemma run_values_table cs : forall w w',
  run w cs = Ok w' ->
  exists ts, tokens w' = (tokens w ++ ts)%list /\
    forall i v, cs !! i = Some (WriteValue v) ->
      exists t m, ts !! i = Some t /\ values (namespace w') = Some m /\ m !! t = Some v.
Proof.
  induction cs as [|c cs IH]; intros w w' H.
  - injection H as <-. exists []. rewrite app_nil_r. split; [done|].
    intros i v Hi. by rewrite lookup_nil in Hi.
  - simpl in H. apply bind_Ok in H as (w1 & Hc & Hr).
    destruct (call_tokens _ _ _ Hc) as [t Ht].
    destruct (IH _ _ Hr) as (ts & Hts & Htab).
    exists (t :: ts). split; [by rewrite Hts, Ht, <- app_assoc|].
    intros [|i] v Hi; simpl in Hi; [|by apply Htab].
    injection Hi as ->. simpl in Hc. injection Hc as <-.
    simpl in Ht. apply app_inv_head in Ht. injection Ht as <-.
    destruct (run_values_kept _ _ _ Hr (valuesCounter (namespace w) + 1)%N v
                (<[":" ++ pretty (valuesCounter (namespace w) + 1)%N := v]>
                   (default ∅ (values (namespace w)))))
      as (m' & Hm' & Hv'); simpl; [lia | done | by rewrite lookup_insert_eq |].
    eauto.
Qed.

(** C7: within one compilation the literal operands, however many and
    whether or not some are equal in value, are given the value-alias
    tokens [:1], ..., [:N] in order; the N tokens are pairwise distinct, and
    the table of value aliases holds each operand under its own token.  The
    compilation itself never fails. *)
Theorem value_aliases_never_deduplicated (cs : list Call) :
  exists w, run new_Writer cs = Ok w /\
    value_tokens cs (tokens w)
    = (fun k => ":" ++ pretty (N.of_nat k))
        <$> seq 1 (length (filter (fun c => is_WriteValue c = true) cs)) /\
    NoDup (value_tokens cs (tokens w)) /\
    forall i v, cs !! i = Some (WriteValue v) ->
      exists t m, tokens w !! i = Some t /\
                  ExpressionAttributeValues (toExpression w) = Some m /\ m !! t = Some v.
Proof.
  destruct (run_names cs new_Writer [] names_inv_new) as (w & _ & _ & Hrun & _).
  exists w. split; [done|].
  destruct (run_value_tokens _ _ _ Hrun) as (ts & Hts & _ & _ & Hvt).
  simpl in Hts, Hvt. subst ts.
  assert (value_tokens cs (tokens w)
          = (fun k => ":" ++ pretty (N.of_nat k))
              <$> seq 1 (length (filter (fun c => is_WriteValue c = true) cs))) as Heq.
  { rewrite Hvt. apply list_fmap_ext. intros _ k _. done. }
  split; [done|]. split.
  - rewrite Heq. apply NoDup_fmap_2_strong; [|apply NoDup_seq].
    intros a b _ _ H%token_inj. lia.
  - destruct (run_values_table _ _ _ Hrun) as (ts & Hts & Htab).
    simpl in Hts. subst ts. exact Htab.
Qed.

(** The two clauses [set(id = 'value')], [set(id = 'value')] of the test of
    repeated clauses: one name alias, two value aliases. *)
Example repeated_clauses :
  let v := VObject [("S", VString "value")] in
  exists w,
    run new_Writer [WriteToken "SET "; WriteName "id"; WriteToken "="; WriteValue v;
                    WriteToken ", "; WriteName "id"; WriteToken "="; WriteValue v] = Ok w /\
    Expression_ (toExpression w) = "SET #1=:1, #1=:2" /\
    ExpressionAttributeNames (toExpression w) = Some {[ "#1" := "id" ]} /\
    ExpressionAttributeValues (toExpression w) = Some {[ ":1" := v; ":2" := v ]}.
Proof.
  eexists. split; [reflexivity|]. split; [reflexivity|]. split; reflexivity.
Qed.

End WriterProofs.

(** ** Instance check and equality *)

Lemma traverse_all_true {A} (test : A -> outcome bool) (xs : list A) :
  Forall (fun x => test x = Ok true) xs ->
  traverse test xs = Ok (replicate (length xs) true).
Proof.
  induction 1 as [|x xs Hx _ IH]; simpl; [done|]. by rewrite Hx, IH.
Qed.

(** The sibling paths: an array, and an object, all of whose elements
    conform are accepted by the instance checks of List and Map. *)
Lemma arrayShape_accepts_conforming (Items : Shape) (items : list Value) :
  Forall (fun v => IsInstance_of Items v = Ok true) items ->
  IsInstance_of (ArrayShape Items) (VArray items) = Ok true.
Proof.
  intros H. cbn [IsInstance_of]. rewrite (traverse_all_true _ _ H). cbn [bind].
  do 2 f_equal. induction (length items) as [|n IH]; [done|].
  simpl. by rewrite filter_cons_False.
Qed.

Lemma mapShape_accepts_conforming (Items : Shape) (props : list (string * Value)) :
  Forall (fun p => IsInstance_of Items (snd p) = Ok true) props ->
  IsInstance_of (MapShape Items) (VObject props) = Ok true.
Proof.
  intros H. cbn [IsInstance_of typeof String.eqb Ascii.eqb Bool.eqb Object_entries own_props bind].
  induction H as [|p props Hp _ IH]; simpl; [done|]. by rewrite Hp.
Qed.

(** C3: the instance check of a Set shape accepts no value at all.  A set of
    strings is not accepted as an instance of the Set-of-String shape, nor
    is the empty set, although all their elements conform: the loop over the
    elements falls through to [return false]. *)
Theorem setShape_never_accepts :
  IsInstance_of (SetShape StringShape) (VSet [VString "a"]) = Ok false /\
  IsInstance_of (SetShape StringShape) (VSet []) = Ok false /\
  forall (Items : Shape) (a : Value), IsInstance_of (SetShape Items) a <> Ok true.
Proof.
  split; [reflexivity|]. split; [reflexivity|].
  intros Items a. simpl. destruct a; try discriminate.
  induction items as [|x items IH]; simpl; [discriminate|].
  destruct (IsInstance_of Items x) as [[|]| |]; simpl; try discriminate. exact IH.
Qed.


(** With the field defined on both sides the same two records are equal. *)
Example structShape_defined_fields_equal :
  Equals_of optional_count
    (VObject [("id", VString "x"); ("count", VNumber 1%float)])
    (VObject [("id", VString "x"); ("count", VNumber 1%float)]) = Ok true.
Proof. reflexivity. Qed.

(** ** Validation *)

Lemma decoratedValidators_plain (shape : Shape) :
  (forall Data target, shape <> Decorated Data target) ->
  decoratedValidators shape = [].
Proof. intros H. destruct shape; try reflexivity. by destruct (H Data shape). Qed.

Lemma run_validators_single (v : ValidatorFn) (a : Value) (path : Template) :
  run_validators [v] a path = v a path.
Proof.
  unfold run_validators. simpl. destruct (v a path) as [es| |]; simpl; auto.
  by rewrite app_nil_r.
Qed.

(** C10: where [Validator.of] of a Union returns, the validator it
    returns reports no diagnostic when the value is an instance of none of
    the variants; otherwise it returns what the validator of the first
    variant whose instance check accepts the value returns, and looks at no
    later variant. *)
Theorem unionShape_validator_first_match (Items : list Shape) (value : Value) (path : Template) :
  Validator_compiles (UnionShape Items) = true ->
  (Forall (fun item => IsInstance_of item value = Ok false) Items ->
   Validator_of (UnionShape Items) value path = Ok []) /\
  (forall pre item post,
     Items = (pre ++ item :: post)%list ->
     Forall (fun it => IsInstance_of it value = Ok false) pre ->
     IsInstance_of item value = Ok true ->
     Validator_of (UnionShape Items) value path = Validator_of item value path).
Proof.
  intros _. split.
  - unfold Validator_of, Validator_of_by.
    rewrite decoratedValidators_plain by discriminate.
    cbn [app Validator_visit]. rewrite run_validators_single.
    induction 1 as [|item Items Hitem _ IH]; simpl; [done|].
    rewrite Hitem. simpl. exact IH.
  - intros pre item post -> Hpre Hitem.
    unfold Validator_of at 1. unfold Validator_of_by at 1.
    rewrite decoratedValidators_plain by discriminate.
    cbn [app Validator_visit]. rewrite run_validators_single.
    induction Hpre as [|it pre Hit _ IH]; simpl.
    + rewrite Hitem. reflexivity.
    + rewrite Hit. simpl. exact IH.
Qed.

(** The theorem at the union of String and Bool and the number 1. *)
Lemma unionShape_validator_witness :
  Validator_of (UnionShape [StringShape; BoolShape]) (VNumber 1%float) [Text "$"] = Ok [].
Proof.
  apply (proj1 (unionShape_validator_first_match [StringShape; BoolShape]
                  (VNumber 1%float) [Text "$"] eq_refl)).
  repeat constructor.
Defined.





(** ** The attribute codec *)

Lemma get_nullish (v : Value) (k : string) :
  is_nullish v = true -> get v k = Throw (null_access k).
Proof. by destruct v. Qed.

Lemma get_not_nullish (v : Value) (k : string) :
  is_nullish v = false -> exists x, get v k = Ok x.
Proof.
  destruct v; try discriminate; intros _; unfold get;
    destruct (assoc k _); eauto; destruct (String.eqb k _); eauto.
Qed.

Lemma Object_keys_not_nullish (v : Value) :
  is_nullish v = false -> Object_keys v = Ok (fst <$> own_props v).
Proof. by destruct v. Qed.

Lemma assertHasKey_outcome (key : string) (value : Value) :
  assertHasKey key value = Ok true \/
  exists msg, assertHasKey key value = Throw (TypeError msg).
Proof.
  unfold assertHasKey. destruct (is_nullish value) eqn:Hn.
  - right. rewrite get_nullish by done. simpl. eauto.
  - left. destruct (get_not_nullish value key Hn) as [x ->]. simpl.
    rewrite Object_keys_not_nullish by done. simpl. by destruct (is_undefined x).
Qed.

(** C2: the check of the discriminant key never raises a decode error: on a
    value that lacks the key it builds the error and drops it, and returns
    true.  (It fails only where the runtime itself does, on undefined or
    null.)  So the reader of a Bool shape, given the wire value [{ S: 'x' }]
    that lacks the key [BOOL], returns undefined to the caller instead of
    failing. *)
Theorem assertHasKey_does_not_fail (host : Host) :
  assertHasKey "BOOL" (VObject [("S", VString "x")]) = Ok true /\
  (exists m, Mapper_of host false BoolShape = Ok m /\
             read m (VObject [("S", VString "x")]) = Ok VUndefined) /\
  forall key value,
    assertHasKey key value = Ok true \/
    exists msg, assertHasKey key value = Throw (TypeError msg).
Proof.
  split; [reflexivity|]. split; [|apply assertHasKey_outcome].
  eexists. split; reflexivity.
Qed.

Lemma traverse_Ok {A B} (f : A -> outcome B) (xs : list A) (ys : list B) :
  traverse f xs = Ok ys <-> Forall2 (fun x y => f x = Ok y) xs ys.
Proof.
  revert ys. induction xs as [|x xs IH]; intros ys; simpl.
  - split; [intros [= <-]; constructor | by inversion 1].
  - split.
    + intros H. apply bind_Ok in H as (y & Hy & H). apply bind_Ok in H as (ys' & Hys & [= <-]).
      constructor; [done|]. by apply IH.
    + inversion 1 as [|? y ? ys' Hy Hys]; subst. rewrite Hy. simpl.
      apply IH in Hys. rewrite Hys. reflexivity.
Qed.

(** The three ways the loop over the candidate readers can end. *)
Lemma first_success_cases (mappers : list Mapper) (value : Value) (otherwise : outcome Value) :
  (exists pre mp post r,
      mappers = (pre ++ mp :: post)%list /\
      Forall (fun mp' => exists e, read mp' value = Throw e) pre /\
      read mp value = Ok r /\ first_success (map read mappers) value otherwise = Ok r)
  \/ (Forall (fun mp' => exists e, read mp' value = Throw e) mappers /\
      first_success (map read mappers) value otherwise = otherwise)
  \/ (exists pre mp post,
      mappers = (pre ++ mp :: post)%list /\
      Forall (fun mp' => exists e, read mp' value = Throw e) pre /\
      read mp value = OutOfModel /\
      first_success (map read mappers) value otherwise = OutOfModel).
Proof.
  induction mappers as [|mp mappers IH]; simpl.
  - right; left. split; [constructor | done].
  - destruct (read mp value) as [r|e|] eqn:Hr; simpl.
    + left. exists [], mp, mappers, r. repeat split; auto.
    + destruct IH as [(pre & rd & post & r & -> & Hpre & Hrd & Hfs)
                     |[(Hall & Hfs)|(pre & rd & post & -> & Hpre & Hrd & Hfs)]].
      * left. exists (mp :: pre), rd, post, r. repeat split; eauto.
      * right; left. split; eauto.
      * right; right. exists (mp :: pre), rd, post. repeat split; eauto.
    + right; right. exists [], mp, mappers. repeat split; auto.
Qed.

(** C5: the reader of a Union shape in the attribute codec runs the readers
    of the variants, each compiled by [Mapper.of], in declaration order, and
    returns what the first reader that does not fail returns; if every
    reader fails, it fails, and on a wire value other than undefined or null
    with the error "failed to read DDB union type" that lists the kinds of
    the variants and the keys of the value.  (A reader that leaves the model
    makes the union's reader leave it too.) *)
Theorem union_reader_first_success
    (host : Host) (validate : bool) (Items : list Shape) (m : Mapper) :
  resolveShape host validate (UnionShape Items) = Ok m ->
  exists mappers,
    Forall2 (fun item mp => Mapper_of host true item = Ok mp) Items mappers /\
    forall value,
      (exists pre mp post r,
          mappers = (pre ++ mp :: post)%list /\
          Forall (fun mp' => exists e, read mp' value = Throw e) pre /\
          read mp value = Ok r /\ read m value = Ok r)
      \/ (Forall (fun mp' => exists e, read mp' value = Throw e) mappers /\
          exists e, read m value = Throw e /\
            (is_nullish value = false ->
             e = Err [Text "failed to read DDB union type: ";
                      Text (join_with "," (Kind <$> Items));
                      Text ", but got "; Text (join_with "" (fst <$> own_props value))]))
      \/ (exists pre mp post,
          mappers = (pre ++ mp :: post)%list /\
          Forall (fun mp' => exists e, read mp' value = Throw e) pre /\
          read mp value = OutOfModel /\ read m value = OutOfModel).
Proof.
  intros H. cbn [resolveShape] in H.
  apply bind_Ok in H as (items & Hitems & [= <-]).
  exists (snd <$> items). split.
  - apply traverse_Ok in Hitems. clear -Hitems.
    induction Hitems as [|item [isType mp] Items items Hm _ IH]; [constructor|].
    apply bind_Ok in Hm as (mp' & Hmp & [= _ ->]).
    constructor; [exact Hmp | exact IH].
  - intros value. cbn [read].
    replace (map (fun p : (Value -> outcome bool) * Mapper => read (snd p)) items)
      with (map read (snd <$> items)) by (by rewrite <- list_fmap_compose).
    destruct (first_success_cases (snd <$> items) value
                (let* keys := Object_keys value in
                 Throw (Err [Text "failed to read DDB union type: ";
                             Text (join_with "," (Kind <$> Items));
                             Text ", but got "; Text (join_with "" keys)])))
      as [Hfirst|[(Hall & Hfs)|Hout]]; [by left| |by right; right].
    right; left. split; [done|]. rewrite Hfs.
    destruct (is_nullish value) eqn:Hn.
    + destruct value; try discriminate; simpl; eexists; (split; [reflexivity|done]).
    + rewrite Object_keys_not_nullish by done. simpl. eauto.
Qed.

(** The theorem at the union of String and Bool: on [{ BOOL: true }] the
    reader of String fails and the reader of Bool answers. *)
Lemma union_reader_witness :
  exists m,
    resolveShape sample_host false (UnionShape [StringShape; BoolShape]) = Ok m /\
    read m (VObject [("BOOL", VBool true)]) = Ok (VBool true) /\
    exists mappers,
      Forall2 (fun item mp => Mapper_of sample_host true item = Ok mp)
        [StringShape; BoolShape] mappers.
Proof.
  eexists. split; [reflexivity|]. split; [reflexivity|].
  destruct (union_reader_first_success sample_host false [StringShape; BoolShape] _ eq_refl)
    as (mappers & Hmappers & _).
  exists mappers. exact Hmappers.
Defined.

(** ** Metadata *)

Lemma assoc_set_eq {A} (k : string) (x : A) (l : list (string * A)) :
  assoc k (assoc_set k x l) = Some x.
Proof.
  induction l as [|[k' y] l IH]; simpl.
  - by rewrite String.eqb_refl.
  - destruct (String.eqb k k') eqn:Hk; simpl; rewrite Hk; auto.
Qed.

Lemma assoc_set_ne {A} (k k' : string) (x : A) (l : list (string * A)) :
  k <> k' -> assoc k (assoc_set k' x l) = assoc k l.
Proof.
  intros Hne. induction l as [|[k'' y] l IH]; simpl.
  - apply String.eqb_neq in Hne. by rewrite Hne.
  - destruct (String.eqb k' k'') eqn:Hk; simpl.
    + apply String.eqb_eq in Hk. subst k''.
      apply String.eqb_neq in Hne. by rewrite Hne.
    + destruct (String.eqb k k''); auto.
Qed.

Lemma assoc_None {A} (k : string) (l : list (string * A)) :
  assoc k l = None <-> k ∉ (fst <$> l).
Proof.
  induction l as [|[k' y] l IH]; simpl.
  - split; [intros _ ?%elem_of_nil; done | done].
  - destruct (String.eqb k k') eqn:Hk.
    + apply String.eqb_eq in Hk. subst. split; [done|]. intros H. destruct H. left.
    + apply String.eqb_neq in Hk. rewrite IH, not_elem_of_cons. tauto.
Qed.

Lemma assoc_spread_over {A} (a b : list (string * A)) (k : string) :
  NoDup (fst <$> a) ->
  assoc k (spread_over b a) = match assoc k a with Some v => Some v | None => assoc k b end.
Proof.
  unfold spread_over. revert b. induction a as [|[k' x] a IH]; intros b Hnd; simpl; [done|].
  simpl in Hnd. apply NoDup_cons in Hnd as [Hk' Hnd].
  rewrite IH by done. destruct (String.eqb k k') eqn:Hk.
  - apply String.eqb_eq in Hk. subst k'.
    apply assoc_None in Hk'. rewrite Hk'. apply assoc_set_eq.
  - apply String.eqb_neq in Hk. rewrite assoc_set_ne by done. reflexivity.
Qed.

Lemma assoc_set_keys {A} (k : string) (x : A) (l : list (string * A)) :
  fst <$> assoc_set k x l
  = if decide (k ∈ fst <$> l) then fst <$> l else ((fst <$> l) ++ [k])%list.
Proof.
  induction l as [|[k' y] l IH].
  - case_decide as H; [by apply elem_of_nil in H | done].
  - cbn [assoc_set]. destruct (String.eqb k k') eqn:Hk.
    + apply String.eqb_eq in Hk. subst. rewrite decide_True; [done|]. left.
    + apply String.eqb_neq in Hk. rewrite !fmap_cons, IH. cbn [fst].
      repeat case_decide; try done; exfalso; rewrite elem_of_cons in *; tauto.
Qed.

Lemma assoc_set_NoDup {A} (k : string) (x : A) (l : list (string * A)) :
  NoDup (fst <$> l) -> NoDup (fst <$> assoc_set k x l).
Proof.
  intros Hnd. rewrite assoc_set_keys. case_decide; [done|].
  apply NoDup_app. repeat split; auto.
  - intros y Hy ->%list_elem_of_singleton. done.
  - apply NoDup_singleton.
Qed.









(** ** Round trips through the codecs *)


Lemma all_or_false_true {A} (test : A -> outcome bool) (xs : list A) :
  Forall (fun x => test x = Ok true) xs -> all_or_false test xs true = Ok true.
Proof. induction 1 as [|x xs Hx _ IH]; simpl; [done|]. by rewrite Hx. Qed.

Lemma all_or_false_inv {A} (test : A -> outcome bool) (xs : list A) (last : bool) :
  all_or_false test xs last = Ok true -> Forall (fun x => test x = Ok true) xs.
Proof.
  induction xs as [|x xs IH]; simpl; [constructor|].
  destruct (test x) as [[|]| |] eqn:Hx; simpl; try discriminate.
  intros H. constructor; auto.
Qed.






Lemma assoc_lookup {A} (l : list (string * A)) (i : nat) (k : string) (x : A) :
  NoDup (fst <$> l) -> l !! i = Some (k, x) -> assoc k l = Some x.
Proof.
  revert i. induction l as [|[k' y] l IH]; intros i Hnd Hi; [done|].
  simpl in Hnd. apply NoDup_cons in Hnd as [Hk' Hnd]. destruct i as [|i]; simpl in *.
  - injection Hi as -> ->. by rewrite String.eqb_refl.
  - destruct (String.eqb k k') eqn:Hk; [|eauto].
    apply String.eqb_eq in Hk. subst k'. exfalso. apply Hk'.
    apply list_elem_of_fmap. exists (k, x). split; [done|].
    by eapply list_elem_of_lookup_2.
Qed.


Lemma assoc_set_fresh {A} (k : string) (x : A) (l : list (string * A)) :
  k ∉ (fst <$> l) -> assoc_set k x l = (l ++ [(k, x)])%list.
Proof.
  induction l as [|[k' y] l IH]; simpl; [done|].
  rewrite not_elem_of_cons. intros [Hne Hk].
  apply String.eqb_neq in Hne. rewrite Hne. by rewrite IH.
Qed.

Lemma assign_own (name : string) (x : Value) (result : list (string * Value)) :
  name <> "__proto__" -> assign name x result = Ok (assoc_set name x result).
Proof. intros H%String.eqb_neq. unfold assign. by rewrite H. Qed.

(** On entries with distinct names, none of them [__proto__], the
    assignment loop builds the list of the results under the same names. *)
Lemma assign_each_NoDup {A} (f : string -> A -> outcome Value)
    (entries : list (string * A)) (ys : list Value) :
  forall result,
    NoDup ((fst <$> result) ++ (fst <$> entries)) ->
    "__proto__" ∉ (fst <$> entries) ->
    Forall2 (fun e y => f (fst e) (snd e) = Ok y) entries ys ->
    assign_each f entries result = Ok (result ++ zip (fst <$> entries) ys)%list.
Proof.
  intros result Hnd Hproto H. revert result Hnd.
  induction H as [|[k x] y entries ys Hy _ IH]; intros result Hnd; simpl.
  - by rewrite app_nil_r.
  - simpl in Hy. rewrite Hy. simpl.
    cbn [fmap list_fmap fst] in Hproto. apply not_elem_of_cons in Hproto as [Hk0 Hproto].
    rewrite assign_own by done. cbn [bind].
    simpl in Hnd. apply NoDup_app in Hnd as (Hr & Hdisj & He).
    apply NoDup_cons in He as [Hk He].
    rewrite assoc_set_fresh by (intros Hin; apply (Hdisj _ Hin); left).
    rewrite IH.
    + by rewrite <- app_assoc.
    + done.
    + rewrite fmap_app. simpl. rewrite <- app_assoc. simpl.
      apply NoDup_app. split_and!; [done| |by apply NoDup_cons].
      intros z Hz. apply Hdisj. done.
Qed.


Lemma index_of_string_inv (values : list string) (a : Value) :
  index_of_string values a = true -> exists s, a = VString s.
Proof.
  unfold index_of_string. intros H. apply existsb_exists in H as (s & _ & H).
  destruct a; try discriminate. eauto.
Qed.




Lemma forallb_zip_bytes (x : list Byte.byte) : forall y,
  length x = length y ->
  forallb (fun p => byte_eqb (fst p) (snd p)) (zip x y) = true <-> x = y.
Proof.
  induction x as [|a x IH]; intros [|b y] Hlen; try discriminate; [done|].
  simpl in Hlen. injection Hlen as Hlen. cbn [zip zip_with forallb fst snd].
  rewrite andb_true_iff, (IH y Hlen). unfold byte_eqb. split.
  - intros [Hab ->]. by apply Byte.byte_dec_bl in Hab as ->.
  - intros [= -> ->]. split; [|done]. by apply Byte.byte_dec_lb.
Qed.



(** The validator of a shape without metadata whose visitor makes one
    validator. *)
Lemma Validator_of_plain_node (shape : Shape) (v : ValidatorFn) (a : Value) (path : Template) :
  (forall Data target, shape <> Decorated Data target) ->
  Validator_visit shape = [v] ->
  Validator_of shape a path = v a path.
Proof.
  intros Hplain Hv. unfold Validator_of, Validator_of_by.
  rewrite decoratedValidators_plain, Hv by done. apply run_validators_single.
Qed.



(** *** The shapes of the round trip *)












Section RoundTrip.

Variable host : Host.





Lemma get_single (key : string) (x : Value) : get (VObject [(key, x)]) key = Ok x.
Proof. simpl. by rewrite String.eqb_refl. Qed.











End RoundTrip.

(** A string is an instance of the Binary shape, yet no host makes it survive
    either codec: the attribute reader insists on a buffer, and the JSON
    reader returns a buffer, which is not equal to a string. *)
Lemma binary_string_no_round_trip (host : Host) (s : string) :
  s <> "" ->
  IsInstance_of BinaryShape (VString s) = Ok true /\
  (forall m, Mapper_of host false BinaryShape = Ok m ->
             ~ round_trips (Equals_of BinaryShape) m (VString s)) /\
  (forall m, Json_mapper host false BinaryShape = Ok m ->
             ~ round_trips (Equals_of BinaryShape) m (VString s)).
Proof.
  intros Hs. split; [reflexivity|]. split.
  - intros m [= <-] (w & r & [= <-] & Hr & _). discriminate.
  - intros m [= <-] (w & r & [= <-] & [= <-] & He). cbn in He.
    destruct s as [|c s]; [done|]. cbn in He.
    destruct (Buffer_fromBase64 host (String c s)) as [|b bs]; cbn in He; [discriminate|].
    destruct (Nat.eqb (length bs) (String.length s)); discriminate.
Qed.





(** * Part III: further properties of the code *)

(** ** The update-expression writer: buffer and tables *)

Module WriterFacts.
Import Writer.

(** X1: [pop] undoes [writeToken] and returns the token, which [head] shows
    without removing it.  Popping the token of a value leaves the value in
    the table and the counter advanced, so its id is not handed out again.
    On an empty buffer both answer undefined and change nothing. *)
Theorem pop_undoes_write (w : Writer) :
  (forall t, head (writeToken w t) = Some t /\ pop (writeToken w t) = (Some t, w)) /\
  (forall v, exists id w',
      pop (writeValue w v) = (Some id, w') /\ tokens w' = tokens w /\
      valuesCounter (namespace w') = (valuesCounter (namespace w) + 1)%N /\
      exists m, values (namespace w') = Some m /\ m !! id = Some v) /\
  (tokens w = [] -> head w = None /\ pop w = (None, w)).
Proof.
  destruct w as [toks ns]. split_and!.
  - intros t. unfold head, pop, writeToken. cbn [tokens namespace].
    rewrite last_snoc, removelast_last. done.
  - intros v. unfold pop, writeValue, addValue, newValueId, writeToken.
    cbn [tokens namespace values valuesCounter aliases aliasReverseLookup namesCounter].
    rewrite last_snoc, removelast_last.
    eexists _, _. split; [reflexivity|]. cbn [tokens namespace values valuesCounter].
    split_and!; [done..|]. eexists. split; [reflexivity|]. apply lookup_insert_eq.
  - cbn [tokens]. intros ->. done.
Qed.

Lemma call_values_inv w c w' :
  call w c = Ok w' -> values_inv (namespace w) -> values_inv (namespace w').
Proof.
  destruct c as [t|n|v]; simpl.
  - intros [= <-]. done.
  - unfold writeName. intros H. apply bind_Ok in H as ([alias ns] & Hadd & [= <-]).
    apply WriterProofs.addName_values in Hadd as [Hv Hc].
    unfold values_inv. cbn [namespace writeToken]. by rewrite Hv, Hc.
  - intros [= <-]. unfold writeValue, addValue, newValueId, writeToken, values_inv.
    cbn [tokens namespace values valuesCounter aliases aliasReverseLookup namesCounter].
    intros Hinv. split; [lia|]. intros t. rewrite lookup_insert_is_Some.
    destruct (values (namespace w)) as [m|] eqn:Hm; cbn [default].
    + destruct Hinv as [Hpos Hinv]. rewrite Hinv. split.
      * intros [<-|[_ (k & Hk & ->)]]; eexists; (split; [|reflexivity]); lia.
      * intros (k & Hk & ->).
        destruct (decide (k = valuesCounter (namespace w) + 1)%N) as [->|Hne]; [by left|].
        right. split; [|exists k; split; [lia|done]].
        intros Heq. apply WriterProofs.token_inj in Heq. lia.
    + rewrite Hinv. rewrite lookup_empty. split.
      * intros [<-|[_ [? [=]]]]. exists 1%N. split; [lia|done].
      * intros (k & Hk & ->). left. f_equal. f_equal. lia.
Qed.

Lemma run_values_inv cs : forall w w',
  run w cs = Ok w' -> values_inv (namespace w) -> values_inv (namespace w').
Proof.
  induction cs as [|c cs IH]; simpl; intros w w'.
  - intros [= <-]. done.
  - intros H. apply bind_Ok in H as (w1 & Hc & Hrun). eauto using call_values_inv.
Qed.

Lemma filter_length_0 {A} (P : A -> Prop) `{!forall x, Decision (P x)} (l : list A) :
  length (filter P l) = 0 <-> Forall (fun x => ~ P x) l.
Proof.
  induction l as [|x l IH]; [by split; [constructor|]|].
  destruct (decide (P x)) as [Hx|Hx].
  - rewrite filter_cons_True by done. simpl. split; [done|].
    inversion 1; subst. done.
  - rewrite filter_cons_False by done. rewrite IH. split; [by constructor|].
    by inversion 1.
Qed.

(** X2: the value table that [toExpression] returns is undefined exactly
    when the compilation wrote no value; otherwise its keys are exactly the
    tokens that the [writeValue] calls wrote. *)
Theorem value_table_holds_value_tokens (cs : list Call) :
  exists w, run new_Writer cs = Ok w /\
    (ExpressionAttributeValues (toExpression w) = None <->
     Forall (fun c => is_WriteValue c = false) cs) /\
    (forall m, ExpressionAttributeValues (toExpression w) = Some m ->
       forall t, is_Some (m !! t) <-> t ∈ value_tokens cs (tokens w)).
Proof.
  destruct (WriterProofs.run_names cs new_Writer [] WriterProofs.names_inv_new)
    as (w & _ & _ & Hrun & _).
  exists w. split; [done|].
  pose proof (run_values_inv cs _ _ Hrun) as Hinv.
  specialize (Hinv ltac:(reflexivity)).
  destruct (WriterProofs.run_value_tokens cs _ _ Hrun) as (ts & Hts & _ & Hc & Hvt).
  cbn [new_Writer tokens namespace valuesCounter new_Namespace] in Hts, Hc, Hvt.
  rewrite app_nil_l in Hts. rewrite Hts.
  unfold toExpression, values_inv in *. cbn [ExpressionAttributeValues].
  rewrite Hc in Hinv.
  assert (Hno : Forall (fun c => is_WriteValue c = false) cs <->
                length (filter (fun c => is_WriteValue c = true) cs) = 0).
  { rewrite filter_length_0. apply Forall_iff. intros c.
    destruct (is_WriteValue c); split; congruence. }
  split.
  - rewrite Hno. destruct (values (namespace w)).
    + destruct Hinv as [Hpos _]. split; [done|]. lia.
    + split; [lia|done].
  - intros m Hm. rewrite Hm in Hinv. destruct Hinv as [_ Hinv].
    intros t. rewrite Hinv, Hvt, list_elem_of_fmap. split.
    + intros (k & Hk & ->). exists (N.to_nat k). split.
      * f_equal. f_equal. lia.
      * apply elem_of_seq. lia.
    + intros (k & -> & Hk%elem_of_seq). eexists. split; [|reflexivity]. lia.
Qed.

Lemma run_aliases_kept cs : forall w w',
  names_of cs = [] -> run w cs = Ok w' -> aliases (namespace w') = aliases (namespace w).
Proof.
  induction cs as [|c cs IH]; cbn [run]; intros w w' Hnames.
  - intros [= <-]. done.
  - intros H. apply bind_Ok in H as (w1 & Hc & Hrun).
    rewrite WriterProofs.names_of_cons in Hnames. apply app_eq_nil in Hnames as [Hc0 Hcs].
    rewrite (IH _ _ Hcs Hrun).
    destruct c as [t|n|v]; simpl in Hc, Hc0; try discriminate.
    + by injection Hc as <-.
    + injection Hc as <-. unfold writeValue, addValue, newValueId. done.
Qed.

Lemma addName_aliases ns name t ns' :
  addName ns name = Ok (t, ns') -> is_Some (aliases ns').
Proof.
  unfold addName.
  destruct (aliases ns), (aliasReverseLookup ns); simpl;
    repeat case_match; intros; simplify_eq; simpl; eauto.
Qed.

Lemma call_aliases w c w' :
  call w c = Ok w' ->
  is_Some (aliases (namespace w)) \/ names_of [c] <> [] ->
  is_Some (aliases (namespace w')).
Proof.
  destruct c as [t|n|v]; simpl.
  - intros [= <-] [H|H]; done.
  - unfold writeName. intros H _. apply bind_Ok in H as ([alias ns] & Hadd & [= <-]).
    by apply addName_aliases in Hadd.
  - intros [= <-] [H|H]; [|done]. unfold writeValue, addValue, newValueId. done.
Qed.

Lemma run_aliases cs : forall w w',
  run w cs = Ok w' ->
  is_Some (aliases (namespace w)) \/ names_of cs <> [] ->
  is_Some (aliases (namespace w')).
Proof.
  induction cs as [|c cs IH]; cbn [run]; intros w w'.
  - intros [= <-] [H|H]; done.
  - intros H Hor. apply bind_Ok in H as (w1 & Hc & Hrun).
    rewrite WriterProofs.names_of_cons in Hor.
    destruct (names_of [c]) as [|x l] eqn:Hn.
    + apply (IH _ _ Hrun). destruct Hor as [Hor|Hor]; [|by right].
      left. apply (call_aliases _ _ _ Hc). by left.
    + apply (IH _ _ Hrun). left. apply (call_aliases _ _ _ Hc). right. by rewrite Hn.
Qed.

(** X3: the name table that [toExpression] returns resolves the token
    written by a [writeName] call to the field path of that call, unless the
    path is the name of a member that objects inherit (for which the code
    writes that member and records nothing); it holds no other path, and it
    is undefined exactly when the compilation made no [writeName] call. *)
Theorem name_table_resolves_name_tokens (cs : list Call) :
  exists w, run new_Writer cs = Ok w /\
    (forall i name, cs !! i = Some (WriteName name) -> inherited name = false ->
       exists t al, tokens w !! i = Some t /\
         ExpressionAttributeNames (toExpression w) = Some al /\ al !! t = Some name) /\
    (forall al t name, ExpressionAttributeNames (toExpression w) = Some al ->
       al !! t = Some name -> name ∈ names_of cs /\ inherited name = false) /\
    (ExpressionAttributeNames (toExpression w) = None <-> names_of cs = []).
Proof.
  destruct (WriterProofs.run_names cs new_Writer [] WriterProofs.names_inv_new)
    as (w & seen & ts & Hrun & Hinv & _ & Hseen & Hts & _ & Htok).
  exists w. split; [done|].
  cbn [new_Writer tokens] in Hts. rewrite app_nil_l in Hts. rewrite Hts.
  unfold toExpression. cbn [ExpressionAttributeNames].
  destruct Hinv as (_ & _ & Htab).
  split_and!.
  - intros i name Hi Hown. apply WriterProofs.inherited_member_None in Hown.
    destruct (Htok i name Hi) as [(j & Hj & Hti)|(_ & member & Hm & _)]; [|congruence].
    destruct (aliases (namespace w)) as [al|]; [|by subst seen].
    destruct (aliasReverseLookup (namespace w)) as [rev|]; [|done].
    exists (alias_of j), al. split_and!; [done..|]. apply Htab. eauto.
  - intros al t name Hal Ht. rewrite Hal in Htab.
    destruct (aliasReverseLookup (namespace w)) as [rev|]; [|done].
    apply Htab in Ht as (i & Hi & _). apply list_elem_of_lookup_2 in Hi.
    apply Hseen in Hi as [Hi|[Hi Hown]]; [by apply elem_of_nil in Hi|].
    split; [done|]. by apply WriterProofs.inherited_member_None.
  - split.
    + intros Hnone.
      destruct (names_of cs) as [|x l] eqn:Hn; [done|].
      destruct (run_aliases cs _ _ Hrun) as [al Hal]; [right; by rewrite Hn|].
      congruence.
    + intros Hnil. by rewrite (run_aliases_kept _ _ _ Hnil Hrun).
Qed.

End WriterFacts.

(** ** Equality *)

(** X4: the equality of the Binary shape decides equality of the bytes: on
    two buffers it returns, and it answers true exactly when they hold the
    same bytes. *)
Theorem binaryShape_equal_iff_same_bytes (x y : list Byte.byte) :
  exists r, Equals_of BinaryShape (VBuffer x) (VBuffer y) = Ok r /\ (r = true <-> x = y).
Proof.
  cbn [Equals_of length_of bind option_nat_eqb].
  destruct (Nat.eqb (length x) (length y)) eqn:Hlen; cbn [negb].
  - apply Nat.eqb_eq in Hlen.
    destruct x as [|a x].
    + destruct y; [|discriminate]. by exists true.
    + cbn [length]. eexists. split; [reflexivity|]. by apply forallb_zip_bytes.
  - apply Nat.eqb_neq in Hlen. exists false. split; [done|].
    split; [discriminate|]. by intros ->.
Qed.


Lemma get_object (props : list (string * Value)) (k : string) :
  get (VObject props) k = Ok (default VUndefined (assoc k props)).
Proof. unfold get. cbn [own_props]. by destruct (assoc k props). Qed.

Lemma assoc_elem {A} (l : list (string * A)) (k : string) (x : A) :
  NoDup (fst <$> l) -> (k, x) ∈ l -> assoc k l = Some x.
Proof.
  intros Hnd [i Hi]%list_elem_of_lookup_1. by apply (assoc_lookup l i).
Qed.

(** X6: where [Equals.of] of a Map shape returns, the equality it returns
    answers true on two objects, the first with pairwise distinct keys,
    exactly when they have the same number of keys and every key of the
    first has in the second a value that is not undefined and is equal to
    the first's under the equality of the item shape.  The order of the
    keys plays no part.  The second object is read with [b[aKey]], which
    also finds the members that objects inherit: the keys of the first that
    name such a member are taken to be keys of the second as well. *)
Theorem mapShape_equal_iff_entrywise (Items : Shape) (pa pb : list (string * Value)) :
  Equals_compiles (MapShape Items) = true ->
  NoDup (fst <$> pa) ->
  Forall (fun k => inherited k = true -> is_Some (assoc k pb)) (fst <$> pa) ->
  (Equals_of (MapShape Items) (VObject pa) (VObject pb) = Ok true <->
   length pa = length pb /\
   Forall (fun e => exists bv, assoc (fst e) pb = Some bv /\ is_undefined bv = false /\
                               Equals_of Items (snd e) bv = Ok true) pa).
Proof.
  intros _ Hnd Hown.
  cbn [Equals_of Object_keys Object_entries own_props bind].
  rewrite !length_fmap.
  assert (Hiff : forall e, e ∈ pa ->
    (let* aValue := get (VObject pa) (fst e) in
     let* bValue := get_member (VObject pb) (fst e) in
     if is_undefined bValue then Ok false else Equals_of Items aValue bValue) = Ok true
    <-> exists bv, assoc (fst e) pb = Some bv /\ is_undefined bv = false /\
                   Equals_of Items (snd e) bv = Ok true).
  { intros [k v] He. cbn [fst snd]. rewrite get_object.
    rewrite (assoc_elem pa k v Hnd He). cbn [bind default get_member].
    rewrite Forall_fmap, Forall_forall in Hown. specialize (Hown _ He). unfold compose in Hown. cbn [fst] in Hown.
    destruct (assoc k pb) as [bv|]; unfold id.
    - cbn [bind]. destruct (is_undefined bv) eqn:Hu; cbv iota.
      + split; [discriminate|]. intros (bv' & [= <-] & Hu' & _). congruence.
      + split; [eauto|]. by intros (bv' & [= <-] & _ & H).
    - destruct (inherited k); [by destruct (Hown eq_refl)|]. clear Hown.
      cbn [bind is_undefined]. cbv iota. split; [discriminate|]. by intros (? & [=] & _). }
  destruct (Nat.eqb (length pa) (length pb)) eqn:Hlen; cbn [negb].
  - apply Nat.eqb_eq in Hlen. split.
    + intros H%all_or_false_inv. split; [done|].
      rewrite Forall_fmap in H. rewrite Forall_forall in H |- *.
      intros e He. apply Hiff; [done|]. apply (H e He).
    + intros [_ H]. apply all_or_false_true. rewrite Forall_fmap.
      rewrite Forall_forall in H |- *. intros e He. apply Hiff; [done|]. apply (H e He).
  - apply Nat.eqb_neq in Hlen. split; [discriminate|]. by intros [? _].
Qed.

(** The theorem at two objects that list the same entries in different
    orders. *)
Lemma mapShape_equal_witness :
  Equals_of (MapShape StringShape)
    (VObject [("a", VString "x"); ("b", VString "y")])
    (VObject [("b", VString "y"); ("a", VString "x")]) = Ok true.
Proof.
  assert (Hnd : NoDup (fst <$> [("a", VString "x"); ("b", VString "y")])).
  { apply (bool_decide_unpack _). vm_compute. exact I. }
  assert (Hown : Forall (fun k => inherited k = true ->
                                  is_Some (assoc k [("b", VString "y"); ("a", VString "x")]))
                   (fst <$> [("a", VString "x"); ("b", VString "y")])).
  { repeat constructor; discriminate. }
  apply (proj2 (mapShape_equal_iff_entrywise StringShape
                  [("a", VString "x"); ("b", VString "y")]
                  [("b", VString "y"); ("a", VString "x")] eq_refl Hnd Hown)).
  split; [reflexivity|]. repeat constructor; eexists; (split; [reflexivity|]); done.
Defined.

(** X7: where [Equals.of] of a Union shape returns, the equality it
    returns answers true on two primitive values that are identical
    ([===]), whatever the variants are.  On two values that are not
    identical, which are two primitives that differ, a primitive and an
    object, or two separately allocated objects, it is decided by the first
    variant, in declaration order, of which both values are instances, by
    that variant's equality; when there is no such variant it answers
    false.  (One object compared with itself is identical to itself; the
    values of the model are separate allocations, so that case is not
    stated.) *)
Theorem unionShape_equal_first_common_variant (Items : list Shape) (a b : Value) :
  Equals_compiles (UnionShape Items) = true ->
  (strict_eq a b = true -> Equals_of (UnionShape Items) a b = Ok true) /\
  (strict_eq a b = false ->
   forall pre item post,
     Items = (pre ++ item :: post)%list ->
     Forall (fun it => IsInstance_of it a = Ok false \/
                       (IsInstance_of it a = Ok true /\ IsInstance_of it b = Ok false)) pre ->
     IsInstance_of item a = Ok true -> IsInstance_of item b = Ok true ->
     Equals_of (UnionShape Items) a b = Equals_of item a b) /\
  (strict_eq a b = false ->
   Forall (fun it => IsInstance_of it a = Ok false \/
                     (IsInstance_of it a = Ok true /\ IsInstance_of it b = Ok false)) Items ->
   Equals_of (UnionShape Items) a b = Ok false).
Proof.
  intros _. split_and!.
  - intros H. cbn [Equals_of]. by rewrite H.
  - intros H pre item post -> Hpre Ha Hb. cbn [Equals_of]. rewrite H.
    induction Hpre as [|it pre [Hit|[Hit Hit']] _ IH]; simpl.
    + rewrite Ha. simpl. rewrite Hb. done.
    + rewrite Hit. simpl. exact IH.
    + rewrite Hit. simpl. rewrite Hit'. simpl. exact IH.
  - intros H Hall. cbn [Equals_of]. rewrite H.
    induction Hall as [|it pre [Hit|[Hit Hit']] _ IH]; simpl; [done| |].
    + rewrite Hit. simpl. exact IH.
    + rewrite Hit. simpl. rewrite Hit'. simpl. exact IH.
Qed.

(** The theorem at the union of String and Number: two equal strings, and a
    string against a number. *)
Lemma unionShape_equal_witness :
  Equals_of (UnionShape [StringShape; NumberShape]) (VString "a") (VString "a") = Ok true /\
  Equals_of (UnionShape [StringShape; NumberShape]) (VString "a") (VNumber 1%float) = Ok false.
Proof.
  split.
  - apply (proj1 (unionShape_equal_first_common_variant [StringShape; NumberShape]
                    (VString "a") (VString "a") eq_refl)). reflexivity.
  - apply (proj2 (proj2 (unionShape_equal_first_common_variant [StringShape; NumberShape]
                    (VString "a") (VNumber 1%float) eq_refl))); [reflexivity|].
    constructor; [right; split; reflexivity|].
    constructor; [left; reflexivity|]. constructor.
Defined.

Lemma Value_nested_ind (P : Value -> Prop) :
  P VUndefined -> P VNull -> (forall b, P (VBool b)) -> (forall n, P (VNumber n)) ->
  (forall s, P (VString s)) ->
  (forall items, Forall P items -> P (VArray items)) ->
  (forall props, Forall (fun p => P (snd p)) props -> P (VObject props)) ->
  (forall items, Forall P items -> P (VSet items)) ->
  (forall bytes, P (VBuffer bytes)) -> (forall time, P (VDate time)) ->
  forall v, P v.
Proof.
  intros Hu Hn Hb Hnum Hs Ha Ho Hset Hbuf Hd.
  fix IH 1. intros [| |b|n|s|items|props|items|bytes|time].
  - exact Hu.
  - exact Hn.
  - apply Hb.
  - apply Hnum.
  - apply Hs.
  - apply Ha. induction items as [|x items IHitems]; constructor; [apply IH|exact IHitems].
  - apply Ho. induction props as [|[k x] props IHprops]; constructor;
      [apply IH|exact IHprops].
  - apply Hset. induction items as [|x items IHitems]; constructor; [apply IH|exact IHitems].
  - apply Hbuf.
  - apply Hd.
Qed.

Lemma remove_dups_NoDup {A} `{EqDecision A} (l : list A) : NoDup l -> remove_dups l = l.
Proof.
  induction 1 as [|x l Hx _ IH]; [done|]. simpl.
  destruct (decide_rel elem_of x l); [done|]. by rewrite IH.
Qed.

Lemma string_in_elem (k : string) (l : list string) : k ∈ l -> string_in k l = true.
Proof.
  intros H. unfold string_in. apply existsb_exists. exists k.
  split; [by apply list_elem_of_In|apply String.eqb_refl].
Qed.

Lemma keys_equal_true (es : list (string * (Value -> outcome bool))) (b : Value)
    (bKeys : list string) :
  isArray b = false -> Object_keys b = Ok bKeys -> NoDup bKeys ->
  length es = length bKeys ->
  Forall (fun e => fst e ∈ bKeys /\ exists bv, get b (fst e) = Ok bv /\ snd e bv = Ok true) es ->
  keys_equal es b = Ok true.
Proof.
  intros Harr Hkeys Hnd Hlen Hes. unfold keys_equal. rewrite Harr, Hkeys. cbn [bind].
  rewrite remove_dups_NoDup by done. rewrite Hlen, Nat.eqb_refl. cbn [negb].
  clear Hlen. induction Hes as [|[k eq] es (Hk & bv & Hbv & Heq) _ IH]; [done|].
  cbn [fst snd] in Hk, Hbv, Heq. rewrite (string_in_elem _ _ Hk). cbn [negb].
  rewrite Hbv. cbn [bind]. rewrite Heq. cbn [bind]. exact IH.
Qed.

(** X8: the equality of the Any shape is reflexive on the values built from
    undefined, booleans, strings, numbers other than NaN, arrays and plain
    objects; on null it throws, and NaN is not equal to itself. *)
Theorem anyShape_equal_reflexive :
  (forall v, self_comparable v = true -> Equals_of AnyShape v v = Ok true) /\
  Equals_of AnyShape VNull VNull
  = Throw (TypeError "Cannot convert undefined or null to object") /\
  Equals_of AnyShape (VNumber nan) (VNumber nan) = Ok false.
Proof.
  split; [|split; reflexivity].
  change (Equals_of AnyShape) with any_equals.
  induction v as [| |b|n|s|items IH|props IH|items _|bytes|time] using Value_nested_ind;
    try discriminate.
  - reflexivity.
  - intros _. by destruct b.
  - intros H. cbn [self_comparable] in H. cbn. by rewrite H.
  - intros _. change (Ok (String.eqb s s) = Ok true). by rewrite String.eqb_refl.
  - intros H. change (forallb self_comparable items = true) in H.
    cbn [any_equals typeof String.eqb Ascii.eqb Bool.eqb negb].
    rewrite Nat.eqb_refl. cbn [negb].
    induction IH as [|x items Hx _ IHitems]; [done|].
    cbn [forallb] in H. apply andb_true_iff in H as [H1 H2].
    rewrite (Hx H1). cbn [bind]. exact (IHitems H2).
  - intros H.
    change (bool_decide (NoDup (fst <$> props))
            && forallb (fun p => self_comparable (snd p)) props = true) in H.
    apply andb_true_iff in H as [Hnd Hall]. apply bool_decide_eq_true in Hnd.
    cbn [any_equals typeof String.eqb Ascii.eqb Bool.eqb negb].
    apply (keys_equal_true _ _ (fst <$> props)); [done|done|done| |].
    + by rewrite length_map, length_fmap.
    + apply Forall_map. rewrite forallb_forall in Hall.
      rewrite Forall_forall in IH |- *. intros [k x] Hp. cbn [fst snd]. split.
      * apply list_elem_of_fmap. by exists (k, x).
      * exists x. split.
        -- rewrite get_object, (assoc_elem props k x Hnd Hp). done.
        -- apply (IH _ Hp). apply (Hall (k, x)). by apply list_elem_of_In.
Qed.

(** The theorem at an object that holds an array. *)
Lemma anyShape_equal_witness :
  Equals_of AnyShape
    (VObject [("id", VString "x"); ("tags", VArray [VBool true; VUndefined])])
    (VObject [("id", VString "x"); ("tags", VArray [VBool true; VUndefined])]) = Ok true.
Proof.
  apply (proj1 anyShape_equal_reflexive). vm_compute. reflexivity.
Defined.

Lemma string_in_spec (k : string) (l : list string) : string_in k l = true <-> k ∈ l.
Proof.
  split; [|apply string_in_elem]. unfold string_in.
  intros (k' & Hin & ->%String.eqb_eq)%existsb_exists. by apply list_elem_of_In.
Qed.

Lemma keys_equal_object_iff (es : list (string * (Value -> outcome bool)))
    (pb : list (string * Value)) :
  NoDup (fst <$> pb) ->
  keys_equal es (VObject pb) = Ok true <->
  length es = length pb /\
  Forall (fun e => exists bv, assoc (fst e) pb = Some bv /\ snd e bv = Ok true) es.
Proof.
  intros Hnd. unfold keys_equal.
  cbn [isArray Object_keys Object_entries own_props bind].
  rewrite remove_dups_NoDup by done. rewrite length_fmap.
  destruct (Nat.eqb (length es) (length pb)) eqn:Hlen; cbn [negb].
  - apply Nat.eqb_eq in Hlen. rewrite Hlen. clear Hlen.
    induction es as [|[k eq] es IH].
    + split; [by split|done].
    + cbn [fst snd]. rewrite get_object. cbn [bind].
      destruct (assoc k pb) as [bv|] eqn:Hk; cbn [default]; unfold id.
      * rewrite string_in_elem by (apply dec_stable; by rewrite <- assoc_None, Hk).
        cbn [negb]. destruct (eq bv) as [[|]|e|] eqn:Heq; cbn [bind].
        -- rewrite IH. split.
           ++ intros [_ H]. split; [done|]. constructor; [|done]. by exists bv.
           ++ intros [_ H]. split; [done|]. by inversion H.
        -- split; [discriminate|]. intros [_ H]. inversion H as [|? ? (bv' & Hbv & Hr) _].
           cbn [fst snd] in Hbv, Hr. congruence.
        -- split; [discriminate|]. intros [_ H]. inversion H as [|? ? (bv' & Hbv & Hr) _].
           cbn [fst snd] in Hbv, Hr. congruence.
        -- split; [discriminate|]. intros [_ H]. inversion H as [|? ? (bv' & Hbv & Hr) _].
           cbn [fst snd] in Hbv, Hr. congruence.
      * assert (Hnot : string_in k (fst <$> pb) = false).
        { apply not_true_is_false. rewrite string_in_spec. by apply assoc_None. }
        rewrite Hnot. cbn [negb]. split; [discriminate|].
        intros [_ H]. inversion H as [|? ? (bv' & Hbv & _) _]. cbn [fst] in Hbv. congruence.
  - apply Nat.eqb_neq in Hlen. split; [discriminate|]. by intros [? _].
Qed.

(** X9: the equality of the Any shape compares two objects by their own
    enumerable keys: on two plain objects it answers true exactly when they
    have the same number of keys and every key of the first is a key of the
    second with an equal value, in whatever order the keys are listed.  A
    Set or a Date has no such keys, so any two Sets are equal, whatever
    they hold, and so are any two Dates. *)
Theorem anyShape_equal_objects_by_own_keys :
  (forall pa pb : list (string * Value),
     NoDup (fst <$> pb) ->
     Equals_of AnyShape (VObject pa) (VObject pb) = Ok true <->
     length pa = length pb /\
     Forall (fun e => exists bv, assoc (fst e) pb = Some bv /\
                                 Equals_of AnyShape (snd e) bv = Ok true) pa) /\
  (forall xs ys, Equals_of AnyShape (VSet xs) (VSet ys) = Ok true) /\
  (forall t u, Equals_of AnyShape (VDate t) (VDate u) = Ok true).
Proof.
  split; [|split; reflexivity].
  intros pa pb Hnd. change (Equals_of AnyShape) with any_equals.
  cbn [any_equals typeof String.eqb Ascii.eqb Bool.eqb negb].
  rewrite (keys_equal_object_iff _ pb Hnd), length_map, Forall_map. done.
Qed.

(** The theorem at two objects that list the same entries in different
    orders. *)
Lemma anyShape_equal_objects_witness :
  Equals_of AnyShape
    (VObject [("a", VString "x"); ("b", VBool true)])
    (VObject [("b", VBool true); ("a", VString "x")]) = Ok true.
Proof.
  assert (Hnd : NoDup (fst <$> [("b", VBool true); ("a", VString "x")])).
  { apply (bool_decide_unpack _). vm_compute. exact I. }
  apply (proj2 (proj1 anyShape_equal_objects_by_own_keys
                  [("a", VString "x"); ("b", VBool true)]
                  [("b", VBool true); ("a", VString "x")] Hnd)).
  split; [reflexivity|]. repeat constructor; eexists; (split; reflexivity).
Defined.

(** ** Instance check *)

Lemma get_member_object (props : list (string * Value)) (k : string) :
  (inherited k = true -> is_Some (assoc k props)) ->
  get_member (VObject props) k = Ok (default VUndefined (assoc k props)).
Proof.
  intros H. cbn [get_member]. destruct (assoc k props); [done|].
  destruct (inherited k); [by destruct (H eq_refl)|done].
Qed.

(** X10: where [IsInstance.of] of a Struct shape returns, the instance
    check it returns is structural: an object is an instance exactly when,
    for every declared field, what the object holds under the field's name
    (undefined when it has no such key) is an instance of the field's
    shape.  Keys that are not declared play no part.  The object is read
    with [a[fieldName]], which also finds the members that objects inherit:
    the declared names that name such a member are taken to be keys of the
    object. *)
Theorem structShape_instance_iff_fields (name : string) (member : Shape)
    (Fields : list (string * Shape)) (props : list (string * Value)) :
  IsInstance_compiles (StructShape ((name, member) :: Fields)) = true ->
  Forall (fun f => inherited (fst f) = true -> is_Some (assoc (fst f) props))
    ((name, member) :: Fields) ->
  (IsInstance_of (StructShape ((name, member) :: Fields)) (VObject props) = Ok true <->
   Forall (fun f => IsInstance_of (snd f) (default VUndefined (assoc (fst f) props)) = Ok true)
     ((name, member) :: Fields)).
Proof.
  intros _.
  cbn [IsInstance_of typeof String.eqb Ascii.eqb Bool.eqb].
  set (all := (name, member) :: Fields). clearbody all. intros Hown.
  assert (Heq : forall f : string * Shape, f ∈ all ->
    (let* value := get_member (VObject props) (fst (fst f, IsInstance_of (snd f))) in
     snd (fst f, IsInstance_of (snd f)) value)
    = IsInstance_of (snd f) (default VUndefined (assoc (fst f) props))).
  { intros f Hf. cbn [fst snd]. rewrite Forall_forall in Hown.
    by rewrite (get_member_object _ _ (Hown f Hf)). }
  split.
  - intros H%all_or_false_inv. apply Forall_map in H.
    rewrite Forall_forall in H |- *. intros f Hf. rewrite <- Heq by done. by apply H.
  - intros H. apply all_or_false_true, Forall_map.
    rewrite Forall_forall in H |- *. intros f Hf. rewrite Heq by done. by apply H.
Qed.

(** The theorem at a struct with one field and an object that holds that
    field and a key that is not declared. *)
Lemma structShape_instance_witness :
  IsInstance_of (StructShape [("id", StringShape)])
    (VObject [("id", VString "a"); ("extra", VBool true)]) = Ok true.
Proof.
  assert (Hown : Forall (fun f : string * Shape => inherited (fst f) = true ->
                    is_Some (assoc (fst f) [("id", VString "a"); ("extra", VBool true)]))
                   [("id", StringShape)]).
  { repeat constructor; discriminate. }
  apply (proj2 (structShape_instance_iff_fields "id" StringShape []
                  [("id", VString "a"); ("extra", VBool true)] eq_refl Hown)).
  repeat constructor.
Defined.



(** X12: where [IsInstance.of] of a Union shape returns, the instance
    check it returns answers true exactly when some variant's instance
    check answers true and those of all variants declared before it answer
    false. *)
Theorem unionShape_instance_iff_first_variant (Items : list Shape) (a : Value) :
  IsInstance_compiles (UnionShape Items) = true ->
  (IsInstance_of (UnionShape Items) a = Ok true <->
   exists pre item post,
     Items = (pre ++ item :: post)%list /\
     Forall (fun it => IsInstance_of it a = Ok false) pre /\
     IsInstance_of item a = Ok true).
Proof.
  intros _.
  cbn [IsInstance_of]. induction Items as [|it Items IH]; cbn [map find_accepting].
  - split; [discriminate|]. intros (pre & item & post & H & _). by destruct pre.
  - destruct (IsInstance_of it a) as [[|]|e|] eqn:Hit; cbn [bind].
    + split; [|done]. intros _. exists [], it, Items. by repeat split.
    + rewrite IH. split.
      * intros (pre & item & post & -> & Hpre & Hitem).
        exists (it :: pre), item, post. split_and!; [done| |done]. by constructor.
      * intros (pre & item & post & Heq & Hpre & Hitem).
        destruct pre as [|it' pre]; simpl in Heq; injection Heq as -> ->.
        -- congruence.
        -- inversion Hpre; subst. by exists pre, item, post.
    + split; [discriminate|]. intros (pre & item & post & Heq & Hpre & Hitem).
      destruct pre as [|it' pre]; simpl in Heq; injection Heq as -> ->.
      * congruence.
      * inversion Hpre; subst. congruence.
    + split; [discriminate|]. intros (pre & item & post & Heq & Hpre & Hitem).
      destruct pre as [|it' pre]; simpl in Heq; injection Heq as -> ->.
      * congruence.
      * inversion Hpre; subst. congruence.
Qed.

(** The theorem at the union of Number and String and a string. *)
Lemma unionShape_instance_witness :
  IsInstance_of (UnionShape [NumberShape; StringShape]) (VString "a") = Ok true.
Proof.
  apply (proj2 (unionShape_instance_iff_first_variant [NumberShape; StringShape]
                  (VString "a") eq_refl)).
  exists [NumberShape], StringShape, []. split_and!; [reflexivity| |reflexivity].
  constructor; [reflexivity|constructor].
Defined.



(** ** Validation *)

(** X14: the validator of a Literal shape checks the type of the value
    only: it reports nothing on every instance of the literal's type,
    whether or not the value is the literal's value, and one diagnostic on
    a value that is not an instance of that type. *)
Theorem literalShape_validator_checks_type_only
    (Type_ : Shape) (Value_ value : Value) (path : Template) :
  (IsInstance_of Type_ value = Ok true ->
   Validator_of (LiteralShape Type_ Value_) value path = Ok []) /\
  (IsInstance_of Type_ value = Ok false ->
   Validator_of (LiteralShape Type_ Value_) value path
   = Ok [Err ([Text "expected literal value: "; Interp Value_; Text ", got ";
               Interp value; Text ", at: "] ++ path)%list]).
Proof.
  split; intros H;
    rewrite (Validator_of_plain_node (LiteralShape Type_ Value_) _ value path
               ltac:(discriminate) eq_refl);
    by rewrite H.
Qed.

(** The theorem at the literal "a" of type String and the string "b". *)
Lemma literalShape_validator_witness :
  Validator_of (LiteralShape StringShape (VString "a")) (VString "b") [Text "$"] = Ok [].
Proof.
  apply (proj1 (literalShape_validator_checks_type_only StringShape (VString "a")
                  (VString "b") [Text "$"])).
  reflexivity.
Defined.

(** X15: the validator of an Enum shape agrees with its instance check: it
    reports no diagnostic exactly on the values that the instance check
    accepts, and exactly one on every other value. *)
Theorem enumShape_validator_agrees_with_instance
    (Values : list (string * string)) (value : Value) (path : Template) :
  (Validator_of (EnumShape Values) value path = Ok [] <->
   IsInstance_of (EnumShape Values) value = Ok true) /\
  (IsInstance_of (EnumShape Values) value = Ok false <->
   exists e, Validator_of (EnumShape Values) value path = Ok [e]).
Proof.
  rewrite (Validator_of_plain_node (EnumShape Values) _ value path
             ltac:(discriminate) eq_refl).
  cbn [IsInstance_of].
  destruct (index_of_string (snd <$> Values) value) eqn:Hin.
  - destruct (index_of_string_inv _ _ Hin) as [s ->].
    cbn [typeof String.eqb Ascii.eqb Bool.eqb negb].
    split; [done|]. split; [discriminate|]. by intros [e [=]].
  - cbn [negb].
    destruct (negb (String.eqb (typeof value) "string"));
      (split; [split; discriminate|]; split; [eauto|done]).
Qed.




Lemma run_validators_cons (f : ValidatorFn) (vs : list ValidatorFn) (a : Value)
    (path : Template) :
  run_validators (f :: vs) a path
  = let* e1 := f a path in let* e2 := run_validators vs a path in Ok (e1 ++ e2)%list.
Proof.
  unfold run_validators. cbn [traverse]. destruct (f a path) as [e1| |]; [|done..].
  cbn [bind]. by destruct (traverse (fun v => v a path) vs).
Qed.

(** The validators that a shape carries in its metadata, by the entry of
    the metadata under the name [validator]. *)
Lemma decoratedValidators_data (shape : Shape) (p : list (string * MetaValue)) :
  Data_or_empty shape = MObject p ->
  decoratedValidators shape
  = match assoc "validator" p with
    | Some (MArray items) =>
        map (fun v => match v with
                      | MFunction f => f
                      | _ => fun _ _ => Throw (not_a_function "v")
                      end) items
    | Some v =>
        if meta_truthy v
        then [fun _ _ => Throw (not_a_function "decoratedValidators.concat")] else []
    | None => []
    end.
Proof.
  intros Hdata. unfold decoratedValidators, Meta_get. rewrite Hdata.
  assert (Hget : meta_get (MObject p) "validator"
                 = default MUndefined (assoc "validator" p)) by reflexivity.
  destruct (assoc "validator" p) as [v|] eqn:Hv; cbn [default] in Hget; unfold id in Hget.
  - destruct (meta_is_undefined v) eqn:Hu.
    + rewrite filter_cons_False by (rewrite Hget, Hu; done). rewrite filter_nil.
      destruct v; try discriminate. done.
    + rewrite filter_cons_True by (by rewrite Hget). rewrite filter_nil.
      cbn [foldl]. rewrite Hget. unfold spread_over, meta_get.
      cbn [foldl fst snd assoc_set meta_spread assoc].
      rewrite String.eqb_refl. cbn [default]. by destruct v.
  - by rewrite filter_cons_False by (by rewrite Hget).
Qed.

Lemma Meta_apply_MakeValidator (shape : Shape) (f : ValidatorFn)
    (pa : list (string * MetaValue)) :
  Data_or_empty shape = MObject pa -> NoDup (fst <$> pa) ->
  (assoc "validator" pa = None \/ exists la, assoc "validator" pa = Some (MArray la)) ->
  exists pr, Meta_apply shape (MakeValidator f) = Ok (Decorated (MObject pr) shape) /\
    assoc "validator" pr
    = Some (MArray (MFunction f :: match assoc "validator" pa with
                                   | Some (MArray la) => la
                                   | _ => []
                                   end)).
Proof.
  intros Hdata Hnd Hval. unfold Meta_apply, MakeValidator. rewrite Hdata.
  cbn [Meta.mergeMetadataValue meta_typeof String.eqb Ascii.eqb Bool.eqb andb
       merge_loop meta_spread fst snd].
  unfold merge_entry.
  destruct Hval as [Hnone|[la Hla]].
  - rewrite Hnone. cbn [bind]. eexists. split; [reflexivity|].
    rewrite assoc_spread_over by (by apply assoc_set_NoDup).
    by rewrite assoc_set_eq.
  - rewrite Hla. cbn [meta_is_undefined Meta.mergeMetadataValue bind app].
    eexists. split; [reflexivity|].
    rewrite assoc_spread_over by (by apply assoc_set_NoDup).
    by rewrite assoc_set_eq.
Qed.

(** X17: a validator applied to a shape as a trait ([Meta.apply] of
    [MakeValidator]) runs before the validators the shape already has: the
    validator of the new shape returns the diagnostics of the applied
    validator followed by those of the validator of the old shape, and
    throws when either does.  The shape's metadata is an object that holds
    no validators yet or an array of them. *)
Theorem applied_validator_runs_first (shape : Shape) (f : ValidatorFn)
    (pa : list (string * MetaValue)) :
  Data_or_empty shape = MObject pa -> NoDup (fst <$> pa) ->
  (assoc "validator" pa = None \/ exists la, assoc "validator" pa = Some (MArray la)) ->
  exists shape', Meta_apply shape (MakeValidator f) = Ok shape' /\
    forall a path,
      Validator_of shape' a path
      = let* e1 := f a path in
        let* e2 := Validator_of shape a path in Ok (e1 ++ e2)%list.
Proof.
  intros Hdata Hnd Hval.
  destruct (Meta_apply_MakeValidator shape f pa Hdata Hnd Hval) as (pr & Happly & Hpr).
  eexists. split; [exact Happly|]. intros a path.
  unfold Validator_of, Validator_of_by.
  rewrite (decoratedValidators_data (Decorated (MObject pr) shape) pr eq_refl), Hpr.
  rewrite (decoratedValidators_data shape pa Hdata).
  cbn [map app Validator_visit]. rewrite run_validators_cons.
  destruct Hval as [Hnone|[la Hla]].
  - by rewrite Hnone.
  - by rewrite Hla.
Qed.

(** The theorem at the String shape, which has no metadata, and a validator
    that rejects everything. *)
Lemma applied_validator_witness :
  exists shape',
    Meta_apply StringShape (MakeValidator (fun _ _ => Ok [Err [Text "no"]])) = Ok shape' /\
    Validator_of shape' (VString "x") [Text "$"] = Ok [Err [Text "no"]].
Proof.
  destruct (applied_validator_runs_first StringShape (fun _ _ => Ok [Err [Text "no"]]) []
              eq_refl (NoDup_nil_2 : NoDup (fst <$> [])) (or_introl eq_refl)) as (shape' & Happly & Hrun).
  exists shape'. split; [exact Happly|]. rewrite Hrun. reflexivity.
Defined.

(** ** Metadata *)

Lemma assoc_foldl_single (g : string -> MetaValue) (l : list string) :
  forall acc k,
    assoc k (foldl (fun a k' => spread_over a [(k', g k')]) acc l)
    = if bool_decide (k ∈ l) then Some (g k) else assoc k acc.
Proof.
  induction l as [|k' l IH]; intros acc k; cbn [foldl].
  - by rewrite bool_decide_eq_false_2 by apply not_elem_of_nil.
  - rewrite IH. unfold spread_over. cbn [foldl fst snd].
    destruct (decide (k ∈ l)) as [Hin|Hin].
    + rewrite !bool_decide_eq_true_2; [done|by right|done].
    + rewrite (bool_decide_eq_false_2 _ Hin).
      destruct (decide (k = k')) as [->|Hne].
      * rewrite bool_decide_eq_true_2 by left. apply assoc_set_eq.
      * rewrite bool_decide_eq_false_2 by (by rewrite not_elem_of_cons).
        by apply assoc_set_ne.
Qed.

(** X18: [Meta.get] with a list of keys, on a shape whose metadata is an
    object, returns an object that holds, of the shape's metadata, exactly
    the entries whose key is in the list and whose value is not undefined.
    The metadata is read with [meta[k]], which also finds the members that
    objects inherit: the keys of the list that name such a member are taken
    to be entries of the metadata. *)
Theorem Meta_get_selects_defined_keys (target : Shape) (keys : list string)
    (props : list (string * MetaValue)) :
  Meta_get target None = MObject props ->
  Forall (fun k => inherited k = true -> is_Some (assoc k props)) keys ->
  exists pr, Meta_get target (Some keys) = MObject pr /\
    forall k, assoc k pr
      = if bool_decide (k ∈ keys)
           && negb (meta_is_undefined (meta_get (Meta_get target None) k))
        then Some (meta_get (Meta_get target None) k) else None.
Proof.
  intros _ _. unfold Meta_get. eexists. split; [reflexivity|]. intros k.
  rewrite (assoc_foldl_single (meta_get (Data_or_empty target))). cbn [assoc].
  destruct (meta_is_undefined (meta_get (Data_or_empty target) k)) eqn:Hu.
  - rewrite andb_false_r. rewrite bool_decide_eq_false_2; [done|].
    rewrite list_elem_of_filter. intros [H _]. congruence.
  - rewrite andb_true_r.
    destruct (decide (k ∈ keys)) as [Hin|Hin].
    + rewrite !bool_decide_eq_true_2; [done..|]. by apply list_elem_of_filter.
    + rewrite !bool_decide_eq_false_2; [done..|].
      rewrite list_elem_of_filter. by intros [_ ?].
Qed.

(** The theorem at a documented shape, a key that its metadata holds and one
    that it does not hold. *)
Lemma Meta_get_witness :
  exists pr, Meta_get readings_by_name (Some ["doc"; "missing"]) = MObject pr /\
    forall k, assoc k pr
      = if bool_decide (k ∈ ["doc"; "missing"])
           && negb (meta_is_undefined (meta_get (Meta_get readings_by_name None) k))
        then Some (meta_get (Meta_get readings_by_name None) k) else None.
Proof.
  apply (Meta_get_selects_defined_keys readings_by_name ["doc"; "missing"]
           [("doc", MString "readings")] eq_refl).
  repeat constructor; discriminate.
Defined.

Lemma spread_over_fresh {A} (a : list (string * A)) : forall acc,
  NoDup ((fst <$> acc) ++ (fst <$> a)) -> spread_over acc a = (acc ++ a)%list.
Proof.
  unfold spread_over. induction a as [|[k x] a IH]; intros acc Hnd; cbn [foldl fst snd].
  - by rewrite app_nil_r.
  - cbn [fmap list_fmap fst] in Hnd.
    assert (Hk : k ∉ fst <$> acc).
    { apply NoDup_app in Hnd as (_ & Hdisj & _). intros Hin. apply (Hdisj _ Hin). left. }
    rewrite assoc_set_fresh by done. rewrite IH.
    + by rewrite <- app_assoc.
    + rewrite fmap_app. cbn [fmap list_fmap fst]. by rewrite <- app_assoc.
Qed.






(** ** The attribute codec *)

(** X20: compiling the attribute codec of a Set whose item shape is not a
    String, Number, Binary or Enum shape fails with the error "invalid
    DynamoDB set type".  (A Set of Integer is left aside: the sources do not
    tell whether the guard of the Number shape holds of it.) *)
Theorem setShape_invalid_item_rejected (host : Host) (validate : bool) (Items : Shape) :
  Kind Items ∉ ["stringShape"; "numberShape"; "binaryShape"; "enumShape"; "integerShape"] ->
  Mapper_of host validate (SetShape Items)
  = Throw (Err [Text "invalid DynamoDB set type: "; InterpKind (Kind Items)]).
Proof.
  rewrite !not_elem_of_cons. intros (Hs & Hn & Hb & He & Hi & _).
  unfold Mapper_of, Mapper_of_by. cbn [resolveShape].
  apply String.eqb_neq in Hs, Hn, Hb, He, Hi. by rewrite Hs, Hn, Hb, He, Hi.
Qed.

(** The theorem at a Set of Bool. *)
Lemma setShape_invalid_item_witness :
  Mapper_of sample_host true (SetShape BoolShape)
  = Throw (Err [Text "invalid DynamoDB set type: "; InterpKind "boolShape"]).
Proof.
  apply (setShape_invalid_item_rejected sample_host true BoolShape).
  apply (bool_decide_unpack _). vm_compute. exact I.
Defined.

Lemma resolveShape_unsupported (host : Host) (shape : Shape) :
  wraps_unsupported shape = true ->
  forall validate, exists e, resolveShape host validate shape = Throw e.
Proof.
  induction shape; try discriminate; cbn [wraps_unsupported]; intros H validate;
    cbn [resolveShape]; eauto.
  - unfold Mapper_of_by. destruct (IHshape H true) as [e ->]. cbn [bind]. eauto.
  - unfold Mapper_of_by. destruct (IHshape H validate) as [e ->]. cbn [bind]. eauto.
  - unfold Mapper_of_by. destruct (IHshape H validate) as [e ->]. cbn [bind]. eauto.
Qed.

Lemma Json_visit_unsupported (host : Host) (shape : Shape) :
  wraps_unsupported shape = true -> exists e, Json_visit host shape = Throw e.
Proof.
  induction shape; try discriminate; cbn [wraps_unsupported]; intros H;
    cbn [Json_visit]; eauto.
  - destruct (IHshape H) as [e ->]. cbn [bind]. eauto.
  - unfold Json_mapper_by. destruct (IHshape H) as [e ->]. cbn [bind]. eauto.
  - unfold Json_mapper_by. destruct (IHshape H) as [e ->]. cbn [bind]. eauto.
Qed.

(** X21: neither codec can be compiled for a Never or a Function shape, nor
    for a List, a Map or a Literal built on one, at any depth and under any
    decoration: [Mapper.of] and [Json.mapper] throw, with or without
    validation. *)
Theorem unsupported_shapes_fail_to_compile (host : Host) (shape : Shape) :
  wraps_unsupported shape = true ->
  forall validate,
    (exists e, Mapper_of host validate shape = Throw e) /\
    (exists e, Json_mapper host validate shape = Throw e).
Proof.
  intros H validate. split.
  - unfold Mapper_of, Mapper_of_by.
    destruct (resolveShape_unsupported host shape H validate) as [e ->]. cbn [bind]. eauto.
  - unfold Json_mapper, Json_mapper_by.
    destruct (Json_visit_unsupported host shape H) as [e ->]. cbn [bind]. eauto.
Qed.

(** The theorem at a map of lists of Never. *)
Lemma unsupported_shapes_witness :
  (exists e, Mapper_of sample_host true (MapShape (ArrayShape NeverShape)) = Throw e) /\
  (exists e, Json_mapper sample_host true (MapShape (ArrayShape NeverShape)) = Throw e).
Proof.
  apply (unsupported_shapes_fail_to_compile sample_host (MapShape (ArrayShape NeverShape))).
  reflexivity.
Defined.

(** The loop of the writers of a Union over the variants, each compiled by
    [compile]: the first variant whose instance check accepts the value
    writes it. *)
Lemma first_instance_spec (compile : Shape -> outcome Mapper) (Items : list Shape)
    (items : list ((Value -> outcome bool) * Mapper)) (value : Value)
    (otherwise : outcome Value) :
  traverse (fun item => let* m := compile item in Ok (IsInstance_of item, m)) Items
  = Ok items ->
  (forall pre item post,
      Items = (pre ++ item :: post)%list ->
      Forall (fun it => IsInstance_of it value = Ok false) pre ->
      IsInstance_of item value = Ok true ->
      exists mp, compile item = Ok mp /\
                 first_instance items value otherwise = write mp value) /\
  (Forall (fun it => IsInstance_of it value = Ok false) Items ->
   first_instance items value otherwise = otherwise).
Proof.
  intros H%traverse_Ok.
  induction H as [|it [isType mp] Items items Hit _ IH].
  - split; [|done]. intros pre item post Heq. by destruct pre.
  - apply bind_Ok in Hit as (mp' & Hmp & [= <- <-]). destruct IH as [IH1 IH2]. split.
    + intros pre item post Heq Hpre Hitem. destruct pre as [|it' pre].
      * simpl in Heq. injection Heq as -> ->. exists mp'. split; [done|].
        cbn [first_instance]. by rewrite Hitem.
      * simpl in Heq. injection Heq as -> ->. inversion Hpre as [|? ? Hit' Hpre']; subst.
        destruct (IH1 pre item post eq_refl Hpre' Hitem) as (mp & Hc & Hw).
        exists mp. split; [done|]. cbn [first_instance]. by rewrite Hit'.
    + intros Hall. inversion Hall as [|? ? Hit' Hall']; subst.
      cbn [first_instance]. rewrite Hit'. cbn [bind]. by apply IH2.
Qed.

(** X22: the writer of a Union shape in the attribute codec writes a value
    with the writer, compiled by [Mapper.of] with validation, of the first
    variant in declaration order whose instance check accepts the value; if
    the instance check of every variant answers false, it fails with the
    error "failed to write DDB union type" that lists the kinds of the
    variants and the keys of the value. *)
Theorem union_writer_first_instance
    (host : Host) (validate : bool) (Items : list Shape) (m : Mapper) :
  resolveShape host validate (UnionShape Items) = Ok m ->
  forall value,
    (forall pre item post,
        Items = (pre ++ item :: post)%list ->
        Forall (fun it => IsInstance_of it value = Ok false) pre ->
        IsInstance_of item value = Ok true ->
        exists mp, Mapper_of host true item = Ok mp /\ write m value = write mp value) /\
    (Forall (fun it => IsInstance_of it value = Ok false) Items ->
     is_nullish value = false ->
     write m value
     = Throw (Err [Text "failed to write DDB union type: ";
                   Text (join_with "," (Kind <$> Items));
                   Text ", but got "; Text (join_with "" (fst <$> own_props value))])).
Proof.
  intros H value. cbn [resolveShape] in H.
  apply bind_Ok in H as (items & Hitems & [= <-]). cbn [write].
  destruct (first_instance_spec _ _ _ value
              (let* keys := Object_keys value in
               Throw (Err [Text "failed to write DDB union type: ";
                           Text (join_with "," (Kind <$> Items));
                           Text ", but got "; Text (join_with "" keys)])) Hitems)
    as [H1 H2].
  split; [exact H1|]. intros Hall Hn. rewrite (H2 Hall).
  by rewrite Object_keys_not_nullish.
Qed.

(** The theorem at the union of String and Bool: a boolean is written by
    the writer of Bool, a number by none. *)
Lemma union_writer_witness :
  exists m,
    resolveShape sample_host false (UnionShape [StringShape; BoolShape]) = Ok m /\
    (exists mp, Mapper_of sample_host true BoolShape = Ok mp /\
                write m (VBool true) = write mp (VBool true)) /\
    write m (VNumber 1%float)
    = Throw (Err [Text "failed to write DDB union type: "; Text "stringShape,boolShape";
                  Text ", but got "; Text ""]).
Proof.
  eexists. split; [reflexivity|].
  pose proof (union_writer_first_instance sample_host false [StringShape; BoolShape] _
                eq_refl) as H.
  split.
  - apply (proj1 (H (VBool true)) [StringShape] BoolShape []); [done| |done].
    by repeat constructor.
  - apply (proj2 (H (VNumber 1%float))); [|done]. by repeat constructor.
Defined.

(** X23: on a shape that [isOptional] holds of, both codecs pass undefined
    and null through unchanged, in both directions: an absent value is
    written as absent, never as a NULL marker.  (For the attribute codec
    this is the mapper compiled without validation; the JSON codec puts the
    wrapper around the validating mapper.) *)
Theorem optional_absent_stays_absent (host : Host) (shape : Shape) (v : Value) :
  isOptional shape = true -> is_nullish v = true ->
  (forall m, Mapper_of host false shape = Ok m -> read m v = Ok v /\ write m v = Ok v) /\
  (forall validate m, Json_mapper host validate shape = Ok m ->
     read m v = Ok v /\ write m v = Ok v).
Proof.
  intros Hopt Hv. split.
  - intros m H. unfold Mapper_of, Mapper_of_by in H.
    apply bind_Ok in H as (mapper & _ & [= <-]). rewrite Hopt.
    cbn [optional_mapper read write]. by rewrite Hv.
  - intros validate m H. unfold Json_mapper, Json_mapper_by in H.
    apply bind_Ok in H as (mapper & _ & [= <-]). rewrite Hopt.
    cbn [optional_mapper read write]. by rewrite Hv.
Qed.

(** The theorem at an optional string and undefined. *)
Lemma optional_absent_witness :
  exists m, Mapper_of sample_host false (UnionShape [StringShape; NothingShape]) = Ok m /\
            read m VUndefined = Ok VUndefined /\ write m VUndefined = Ok VUndefined.
Proof.
  eexists. split; [reflexivity|].
  apply (proj1 (optional_absent_stays_absent sample_host
                  (UnionShape [StringShape; NothingShape]) VUndefined eq_refl eq_refl)).
  reflexivity.
Defined.

Lemma assertHasKey_object (key : string) (props : list (string * Value)) :
  assertHasKey key (VObject props) = Ok true.
Proof.
  unfold assertHasKey. rewrite get_object. cbn [bind].
  by destruct (is_undefined _).
Qed.

(** X24: the readers of the scalars whose wire form is checked for its
    type fail on a wire object that lacks their key, with the error of the
    type check: "expected type string, but got: undefined" for String,
    Enum and Timestamp (key S) and for Integer and Number (key N), and
    "expected { B: Buffer }, but got { B: undefined }" for Binary. *)
Theorem scalar_readers_reject_missing_key
    (host : Host) (validate : bool) (props : list (string * Value)) :
  (assoc "S" props = None ->
   forall shape,
     shape = StringShape \/ (exists Values, shape = EnumShape Values)
     \/ shape = TimestampShape ->
     exists m, resolveShape host validate shape = Ok m /\
       read m (VObject props)
       = Throw (Err [Text "expected type "; Text "string"; Text ", but got: ";
                     Text "undefined"])) /\
  (assoc "N" props = None ->
   forall shape, shape = IntegerShape \/ shape = NumberShape ->
     exists m, resolveShape host validate shape = Ok m /\
       read m (VObject props)
       = Throw (Err [Text "expected type "; Text "string"; Text ", but got: ";
                     Text "undefined"])) /\
  (assoc "B" props = None ->
   exists m, resolveShape host validate BinaryShape = Ok m /\
     read m (VObject props)
     = Throw (Err [Text "expected { B: Buffer }, but got { B: "; Text "undefined";
                   Text " }"])).
Proof.
  split_and!.
  - intros H shape [->|[[Values ->]| ->]]; (eexists; split; [reflexivity|]);
      cbn [read]; rewrite assertHasKey_object, get_object, H; reflexivity.
  - intros H shape [->| ->]; (eexists; split; [reflexivity|]);
      cbn [read]; rewrite assertHasKey_object, get_object, H; reflexivity.
  - intros H. eexists. split; [reflexivity|].
    cbn [read]. rewrite assertHasKey_object, get_object, H. reflexivity.
Qed.

(** The theorem at the reader of String and a wire object with the key of
    a boolean. *)
Lemma scalar_readers_witness :
  exists m, resolveShape sample_host false StringShape = Ok m /\
    read m (VObject [("BOOL", VBool true)])
    = Throw (Err [Text "expected type "; Text "string"; Text ", but got: ";
                  Text "undefined"]).
Proof.
  apply (proj1 (scalar_readers_reject_missing_key sample_host false
                  [("BOOL", VBool true)]) eq_refl StringShape).
  by left.
Defined.


(** The loop of the reader and of the writer of a Struct over the mappers
    of the declared fields. *)
Lemma struct_traverse (host : Host) (validate : bool) (f : Mapper -> Value -> outcome Value)
    (Members : list (string * Shape)) (mappers : list (string * Mapper))
    (value : Value) (ys : list Value) :
  traverse (fun p => let* m := Mapper_of_by host (resolveShape host validate) validate (snd p) in
                     Ok (fst p, m)) Members = Ok mappers ->
  NoDup (fst <$> Members) ->
  "__proto__" ∉ (fst <$> Members) ->
  Forall2 (fun p y => exists fm v,
             Mapper_of host validate (snd p) = Ok fm /\ get_member value (fst p) = Ok v /\
             (if is_undefined v then y = VUndefined else f fm v = Ok y))
    Members ys ->
  assign_each (fun name mapper =>
      let* v := get_member value name in
      if is_undefined v then Ok VUndefined else f mapper v)
    (spread_over [] mappers) []
  = Ok (zip (fst <$> Members) ys).
Proof.
  intros Hmappers%traverse_Ok Hnd Hproto Hys.
  assert (Hkeys : fst <$> mappers = fst <$> Members).
  { clear -Hmappers. induction Hmappers as [|p q Members mappers Hp _ IH]; [done|].
    apply bind_Ok in Hp as (fm & _ & [= <-]). cbn [fmap list_fmap fst].
    by rewrite <- IH. }
  rewrite spread_over_fresh by (by rewrite Hkeys).
  cbn [app]. erewrite (assign_each_NoDup _ mappers ys []).
  - cbn [app]. by rewrite Hkeys.
  - by rewrite Hkeys.
  - by rewrite Hkeys.
  - clear -Hmappers Hys. revert ys Hys.
    induction Hmappers as [|p q Members mappers Hp _ IH]; intros ys Hys.
    + inversion Hys. constructor.
    + inversion Hys as [|? y ? ys' (fm & v & Hfm & Hv & Hy) Hys']; subst.
      unfold Mapper_of in Hfm. rewrite Hfm in Hp. injection Hp as <-.
      constructor; [|by apply IH]. cbn [fst snd]. rewrite Hv. cbn [bind].
      destruct (is_undefined v); [by subst y|done].
Qed.

(** X26: the writer of a Struct in the attribute codec, when no field is
    named [__proto__], emits under [M] an object with exactly the declared
    fields in declaration order: a field for which [value[name]] is
    undefined stays undefined (no NULL marker), every other field is
    written by the mapper of its shape, and keys of the value that are not
    declared are dropped.  [value[name]] is the member of that name, own or
    inherited: for a declared name that names a member that objects inherit
    and that the value does not hold itself, it is not undefined, and what
    the mapper makes of it is not stated. *)
Theorem struct_writer_emits_declared_fields (host : Host) (validate : bool)
    (Members : list (string * Shape)) (m : Mapper) (value : Value) (ws : list Value) :
  resolveShape host validate (StructShape Members) = Ok m ->
  NoDup (fst <$> Members) ->
  "__proto__" ∉ (fst <$> Members) ->
  Forall2 (fun p w => exists fm v,
             Mapper_of host validate (snd p) = Ok fm /\ get_member value (fst p) = Ok v /\
             (if is_undefined v then w = VUndefined else write fm v = Ok w))
    Members ws ->
  write m value = Ok (VObject [("M", VObject (zip (fst <$> Members) ws))]).
Proof.
  intros H Hnd Hproto Hws. cbn [resolveShape] in H.
  apply bind_Ok in H as (mappers & Hmappers & [= <-]). cbn [write].
  by rewrite (struct_traverse host validate write Members mappers value ws).
Qed.

(** The theorem at a struct with an optional count and a value without the
    count and with an undeclared key. *)
Lemma struct_writer_witness :
  exists m, resolveShape sample_host false optional_count = Ok m /\
    write m (VObject [("id", VString "x"); ("extra", VBool true)])
    = Ok (VObject [("M", VObject [("id", VObject [("S", VString "x")]);
                                  ("count", VUndefined)])]).
Proof.
  eexists. split; [reflexivity|].
  assert (Hnd : NoDup (fst <$> [("id", StringShape);
                                ("count", UnionShape [NumberShape; NothingShape])])).
  { apply (bool_decide_unpack _). vm_compute. exact I. }
  assert (Hproto : "__proto__" ∉ (fst <$> [("id", StringShape);
                                ("count", UnionShape [NumberShape; NothingShape])])).
  { apply (bool_decide_unpack _). vm_compute. exact I. }
  apply (struct_writer_emits_declared_fields sample_host false
           [("id", StringShape); ("count", UnionShape [NumberShape; NothingShape])] _
           (VObject [("id", VString "x"); ("extra", VBool true)])
           [VObject [("S", VString "x")]; VUndefined] eq_refl Hnd Hproto).
  constructor; [|constructor; [|constructor]].
  - eexists _, _. split; [reflexivity|]. split; reflexivity.
  - eexists _, _. split; [reflexivity|]. split; reflexivity.
Defined.

(** X27: the reader of a Struct in the attribute codec, when no field is
    named [__proto__], hands to the constructor of the struct an object
    with exactly the declared fields: a field for which [wire[name]] is
    undefined is handed over as undefined, whether or not its shape is
    optional, and every other field as read by the mapper of its shape.  A
    missing field is not an error of the reader.  [wire[name]] is the
    member of that name, own or inherited: for a declared name that names a
    member that objects inherit and that the wire object does not hold
    itself, it is not undefined, and what the mapper makes of it is not
    stated. *)
Theorem struct_reader_reads_declared_fields (host : Host) (validate : bool)
    (Members : list (string * Shape)) (m : Mapper) (wire : Value) (rs : list Value) :
  resolveShape host validate (StructShape Members) = Ok m ->
  NoDup (fst <$> Members) ->
  "__proto__" ∉ (fst <$> Members) ->
  Forall2 (fun p r => exists fm v,
             Mapper_of host validate (snd p) = Ok fm /\ get_member wire (fst p) = Ok v /\
             (if is_undefined v then r = VUndefined else read fm v = Ok r))
    Members rs ->
  read m (VObject [("M", wire)])
  = construct host (StructShape Members) (VObject (zip (fst <$> Members) rs)).
Proof.
  intros H Hnd Hproto Hrs. cbn [resolveShape] in H.
  apply bind_Ok in H as (mappers & Hmappers & [= <-]). cbn [read].
  rewrite assertHasKey_object, get_single. cbn [bind].
  by rewrite (struct_traverse host validate read Members mappers wire rs).
Qed.

(** The theorem at a struct with a required id and an empty wire object. *)
Lemma struct_reader_witness :
  exists m, resolveShape sample_host false optional_count = Ok m /\
    read m (VObject [("M", VObject [])])
    = Ok (VObject [("id", VUndefined); ("count", VUndefined)]).
Proof.
  eexists. split; [reflexivity|].
  assert (Hnd : NoDup (fst <$> [("id", StringShape);
                                ("count", UnionShape [NumberShape; NothingShape])])).
  { apply (bool_decide_unpack _). vm_compute. exact I. }
  assert (Hproto : "__proto__" ∉ (fst <$> [("id", StringShape);
                                ("count", UnionShape [NumberShape; NothingShape])])).
  { apply (bool_decide_unpack _). vm_compute. exact I. }
  apply (struct_reader_reads_declared_fields sample_host false
           [("id", StringShape); ("count", UnionShape [NumberShape; NothingShape])] _
           (VObject []) [VUndefined; VUndefined] eq_refl Hnd Hproto).
  constructor; [|constructor; [|constructor]].
  - eexists _, _. split; [reflexivity|]. split; reflexivity.
  - eexists _, _. split; [reflexivity|]. split; reflexivity.
Defined.

(** ** The JSON codec *)

(** X28: the reader of a Literal in the JSON codec compares the wire value
    itself, not the value it has read from it, with the literal's value
    under the equality of the literal's type, and returns the literal's
    value; the writer returns the same wire value whatever it is given.  So
    the reader of a Timestamp literal fails on every wire value: a wire
    value that is read is a string, and the equality of Timestamp fails on
    it. *)
Theorem json_literal_reader_compares_wire_value
    (host : Host) (Type_ : Shape) (Value_ : Value) (m : Mapper) :
  Json_visit host (LiteralShape Type_ Value_) = Ok m ->
  (forall a r, read m a = Ok r ->
     r = Value_ /\ Equals_of Type_ a Value_ = Ok true /\
     exists vm v, Json_visit host Type_ = Ok vm /\ read vm a = Ok v) /\
  (exists w, forall x, write m x = Ok w) /\
  (Type_ = TimestampShape -> forall a, exists e, read m a = Throw e).
Proof.
  intros H. cbn [Json_visit] in H.
  apply bind_Ok in H as (vm & Hvm & H). apply bind_Ok in H as (w & Hw & [= <-]).
  cbn [read write]. split_and!.
  - intros a r Hr. apply bind_Ok in Hr as (v & Hv & Hr).
    apply bind_Ok in Hr as (e & He & Hr). destruct e; [|discriminate].
    injection Hr as <-. split_and!; [done..|]. by exists vm, v.
  - by exists w.
  - intros -> a. cbn [Json_visit] in Hvm. injection Hvm as <-. cbn [read].
    destruct a; cbn [bind Equals_of]; eauto.
Qed.

(** The theorem at the literal "a" of type String. *)
Lemma json_literal_witness :
  exists m, Json_visit sample_host (LiteralShape StringShape (VString "a")) = Ok m /\
    read m (VString "a") = Ok (VString "a") /\
    forall r, read m (VString "b") = Ok r -> r = VString "a".
Proof.
  eexists. split; [reflexivity|]. split; [reflexivity|].
  intros r Hr.
  apply (proj1 (json_literal_reader_compares_wire_value sample_host StringShape
                  (VString "a") _ eq_refl) (VString "b") r Hr).
Defined.

(** X29: the mapper of a Union in the JSON codec works on the mappers of
    the variants compiled by [Json.mapper] without validation.  Its reader
    returns what the first reader that does not fail returns, and fails
    with "expected a value of" when all fail; its writer writes with the
    writer of the first variant whose instance check accepts the value, and
    fails with "expected one of union type" when the instance check of
    every variant answers false. *)
Theorem json_union_mapper_first_match (host : Host) (Items : list Shape) (m : Mapper) :
  Json_visit host (UnionShape Items) = Ok m ->
  exists mappers,
    Forall2 (fun item mp => Json_mapper host false item = Ok mp) Items mappers /\
    forall value,
      ((exists pre mp post r,
          mappers = (pre ++ mp :: post)%list /\
          Forall (fun mp' => exists e, read mp' value = Throw e) pre /\
          read mp value = Ok r /\ read m value = Ok r)
       \/ (Forall (fun mp' => exists e, read mp' value = Throw e) mappers /\
           read m value
           = Throw (Err [Text "expected a value of "; InterpKind "unionShape";
                         Text ", but got: "; Interp value]))
       \/ (exists pre mp post,
           mappers = (pre ++ mp :: post)%list /\
           Forall (fun mp' => exists e, read mp' value = Throw e) pre /\
           read mp value = OutOfModel /\ read m value = OutOfModel)) /\
      (forall pre item post,
          Items = (pre ++ item :: post)%list ->
          Forall (fun it => IsInstance_of it value = Ok false) pre ->
          IsInstance_of item value = Ok true ->
          exists mp, Json_mapper host false item = Ok mp /\
                     write m value = write mp value) /\
      (Forall (fun it => IsInstance_of it value = Ok false) Items ->
       write m value
       = Throw (Err [Text "expected one of union type: "; InterpKind "unionShape";
                     Text ", but got: "; Interp value])).
Proof.
  intros H. cbn [Json_visit] in H.
  apply bind_Ok in H as (items & Hitems & [= <-]).
  exists (snd <$> items). split.
  - apply traverse_Ok in Hitems. clear -Hitems.
    induction Hitems as [|item [isType mp] Items items Hm _ IH]; [constructor|].
    apply bind_Ok in Hm as (mp' & Hmp & [= _ ->]).
    constructor; [exact Hmp | exact IH].
  - intros value. cbn [read write Kind]. split_and!.
    + replace (map (fun p : (Value -> outcome bool) * Mapper => read (snd p)) items)
        with (map read (snd <$> items)) by (by rewrite <- list_fmap_compose).
      destruct (first_success_cases (snd <$> items) value
                  (Throw (Err [Text "expected a value of "; InterpKind "unionShape";
                               Text ", but got: "; Interp value])))
        as [Hfirst|[(Hall & Hfs)|Hout]]; [by left| |by right; right].
      right; left. by split.
    + apply (first_instance_spec _ _ _ value _ Hitems).
    + apply (first_instance_spec _ _ _ value _ Hitems).
Qed.

(** The theorem at the union of String and Bool. *)
Lemma json_union_witness :
  exists m, Json_visit sample_host (UnionShape [StringShape; BoolShape]) = Ok m /\
    read m (VBool true) = Ok (VBool true) /\
    exists mappers,
      Forall2 (fun item mp => Json_mapper sample_host false item = Ok mp)
        [StringShape; BoolShape] mappers.
Proof.
  eexists. split; [reflexivity|]. split; [reflexivity|].
  destruct (json_union_mapper_first_match sample_host [StringShape; BoolShape] _ eq_refl)
    as (mappers & Hmappers & _).
  exists mappers. exact Hmappers.
Defined.

(** X30: the mapper of Nothing in the JSON codec writes null and reads
    null, and null is not equal to anything under the equality of Nothing:
    no value makes the round trip.  The mapper of Nothing in the attribute
    codec makes the round trip at undefined, and not at null, which it
    reads back as undefined. *)
Theorem nothing_round_trips (host : Host) (validate : bool) :
  (exists m, Json_visit host NothingShape = Ok m /\
     forall V, ~ round_trips (Equals_of NothingShape) m V) /\
  (exists m, resolveShape host validate NothingShape = Ok m /\
     round_trips (Equals_of NothingShape) m VUndefined /\
     ~ round_trips (Equals_of NothingShape) m VNull).
Proof.
  split.
  - eexists. split; [reflexivity|]. intros V (w & r & Hw & Hr & He).
    cbn [write] in Hw. injection Hw as <-. cbn [read is_nullish] in Hr.
    injection Hr as <-. cbn [Equals_of strict_eq] in He.
    rewrite andb_false_r in He. discriminate.
  - eexists. split; [reflexivity|]. split.
    + by exists (VObject [("NULL", VBool true)]), VUndefined.
    + intros (w & r & _ & Hr & He). cbn [read] in Hr. injection Hr as <-.
      discriminate.
Qed.
